(** * trailingout: the order-instruction parser of [translator/parser.py]

    A shallow embedding of [OrderParser] and [OrderInstruction] and the
    properties of the natural-language specification proved about them.

    Conventions of the embedding.

    - A Python [str] is a list of Unicode code points ([pystr]).  Messages
      are quantified over as Rocq strings, whose 8-bit characters are read as
      the code points U+0000..U+00FF (Latin-1): on that range [str.lower],
      [str.upper] and the case folding of [re.IGNORECASE] are given exactly;
      the case tables of the rest of Unicode are not part of the source and
      are not modelled.  [str.isspace] (used by [str.strip] and by [\s]) is
      given for every code point.
    - [re] patterns are a small syntax tree run by a backtracking matcher with
      the priorities of Python's engine (greedy repetition, left alternative
      first, leftmost start position).
    - [float(...)] is the correctly rounded binary64 value of a decimal
      literal, computed with the IEEE operations of [SpecFloat].
    - Raising [OrderParserError] is a result constructor; the five messages
      of the source are the five constructors of the error type. *)

From Stdlib Require Import String Ascii NArith ZArith Bool Lia QArith.
From Stdlib Require Import Floats.SpecFloat.
From Stdlib Require DecimalString.
From Stdlib Require Import List.
Import ListNotations.
Close Scope Q_scope.

Set Implicit Arguments.

(* ===================================================================== *)
(** * Python strings *)
(* ===================================================================== *)

Module PyStr.
Local Open Scope N_scope.

(** A [str]: its code points, in order. *)
Definition pystr := list N.

(** A Rocq string literal read as code points U+0000..U+00FF. *)
Definition str (s : string) : pystr :=
  map N_of_ascii (list_ascii_of_string s).

Definition between (lo hi x : N) : bool := (lo <=? x) && (x <=? hi).

(** [str.isspace] on one code point: the characters Python's [strip()] and
    the [\s] class of a [str] pattern treat as whitespace. *)
Definition is_space (c : N) : bool :=
  between 9 13 c || between 28 32 c || (c =? 133) || (c =? 160)
  || (c =? 5760) || between 8192 8202 c || (c =? 8232) || (c =? 8233)
  || (c =? 8239) || (c =? 8287) || (c =? 12288).

(** Lower-case mapping of one code point, for U+0000..U+00FF:
    A-Z and the accented capitals U+00C0..U+00DE (but not the multiplication
    sign U+00D7) move up by 32, every other code point is unchanged. *)
Definition lower_cp (c : N) : N :=
  if between 65 90 c then c + 32
  else if between 192 222 c && negb (c =? 215) then c + 32
  else c.

(** Simple (one code point) upper-case mapping, the one the [re] engine
    uses; U+00B5 and U+00FF have their capitals outside Latin-1. *)
Definition simple_upper_cp (c : N) : N :=
  if between 97 122 c then c - 32
  else if between 224 254 c && negb (c =? 247) then c - 32
  else if c =? 181 then 924
  else if c =? 255 then 376
  else c.

(** Full upper-case mapping, the one of [str.upper]: as the simple one but
    the sharp s U+00DF becomes the two letters SS. *)
Definition upper_cp (c : N) : list N :=
  if c =? 223 then [83; 83] else [simple_upper_cp c].

Definition lower (s : pystr) : pystr := map lower_cp s.
Definition upper (s : pystr) : pystr := flat_map upper_cp s.

Fixpoint dropwhile (p : N -> bool) (s : pystr) : pystr :=
  match s with
  | [] => []
  | c :: s' => if p c then dropwhile p s' else s
  end.

Definition lstrip (s : pystr) : pystr := dropwhile is_space s.
Definition rstrip (s : pystr) : pystr := rev (dropwhile is_space (rev s)).

(** [s.strip()] *)
Definition strip (s : pystr) : pystr := rstrip (lstrip s).

Fixpoint startswith (s t : pystr) : bool :=
  match t, s with
  | [], _ => true
  | _ :: _, [] => false
  | a :: t', b :: s' => (a =? b) && startswith s' t'
  end.

(** [t in s]: [t] occurs in [s] as a substring. *)
Fixpoint contains (t s : pystr) : bool :=
  startswith s t ||
  match s with
  | [] => false
  | _ :: s' => contains t s'
  end.

(** [s.replace(a, b)] for one-character [a] and [b]. *)
Definition replace (a b : N) (s : pystr) : pystr :=
  map (fun c => if c =? a then b else c) s.

Definition pystr_eqb (s t : pystr) : bool :=
  if list_eq_dec N.eq_dec s t then true else false.

End PyStr.
Export PyStr.

(* ===================================================================== *)
(** * The regular-expression engine *)
(* ===================================================================== *)

Module Re.
Local Open Scope N_scope.

(** Members of a bracketed class: [a-z], a single character, [\s]. *)
Inductive item :=
| Range (lo hi : N)
| Ch (c : N)
| Space.

Definition class := list item.

(** The pattern syntax the three patterns of the source need.  Every
    repetition in them ([+], [{3,5}]) is over a character class, so [Rep]
    takes a class; [r?] is [Alt r Eps]. *)
Inductive regex :=
| Eps
| Lit (c : N)
| OneOf (cs : class)
| Rep (cs : class) (lo : nat) (hi : option nat)
| Seq (r1 r2 : regex)
| Alt (r1 r2 : regex)
| Group (i : nat) (r : regex).

Definition Opt (r : regex) : regex := Alt r Eps.
Definition Plus (cs : class) : regex := Rep cs 1 None.

Fixpoint lits (s : pystr) : regex :=
  match s with
  | [] => Eps
  | [c] => Lit c
  | c :: s' => Seq (Lit c) (lits s')
  end.

(** Captured groups of a match, most recent binding first. *)
Definition groups := list (nat * pystr).

Fixpoint group (i : nat) (g : groups) : option pystr :=
  match g with
  | [] => None
  | (j, w) :: g' => if Nat.eqb i j then Some w else group i g'
  end.

(** The code points [lo], [lo+1], ..., [hi]. *)
Definition codes (lo hi : N) : list N :=
  map N.of_nat (seq (N.to_nat lo) (N.to_nat hi + 1 - N.to_nat lo)).

Section Engine.

(** [re.IGNORECASE] *)
Variable ignorecase : bool.

(** Under IGNORECASE a literal matches the characters with its lower-case
    form, and a range matches the characters whose lower-case form is the
    lower-case form of one of its members. *)
Definition lit_match (c x : N) : bool :=
  if ignorecase then lower_cp x =? lower_cp c else x =? c.

Definition item_match (it : item) (x : N) : bool :=
  match it with
  | Range lo hi =>
      if ignorecase
      then existsb (fun c => lower_cp x =? lower_cp c) (codes lo hi)
      else between lo hi x
  | Ch c => lit_match c x
  | Space => is_space x
  end.

Definition class_match (cs : class) (x : N) : bool :=
  existsb (fun it => item_match it x) cs.

Section Exec.
Variable A : Type.

(** Greedy repetition of a class: as many characters as allowed first, one
    fewer each time the rest of the pattern fails. *)
Fixpoint greedy (p : N -> bool) (lo : nat) (hi : option nat) (s : pystr)
  (k : pystr -> option A) {struct s} : option A :=
  let stop := match lo with O => k s | S _ => None end in
  match hi with
  | Some O => stop
  | _ =>
      match s with
      | c :: s' =>
          if p c then
            match greedy p (pred lo) (option_map pred hi) s' k with
            | Some a => Some a
            | None => stop
            end
          else stop
      | [] => stop
      end
  end.

(** Backtracking match of [r] at the head of [s]; [k] is the rest of the
    pattern, given the unread input and the groups captured so far. *)
Fixpoint exec (r : regex) (s : pystr) (g : groups)
  (k : pystr -> groups -> option A) {struct r} : option A :=
  match r with
  | Eps => k s g
  | Lit c =>
      match s with
      | x :: s' => if lit_match c x then k s' g else None
      | [] => None
      end
  | OneOf cs =>
      match s with
      | x :: s' => if class_match cs x then k s' g else None
      | [] => None
      end
  | Rep cs lo hi => greedy (class_match cs) lo hi s (fun s' => k s' g)
  | Seq r1 r2 => exec r1 s g (fun s' g' => exec r2 s' g' k)
  | Alt r1 r2 =>
      match exec r1 s g k with
      | Some a => Some a
      | None => exec r2 s g k
      end
  | Group i r1 =>
      exec r1 s g
        (fun s' g' => k s' ((i, firstn (length s - length s') s) :: g'))
  end.

End Exec.

(** A match anchored at the head of [s]: the groups, if any. *)
Definition match_at (r : regex) (s : pystr) : option groups :=
  exec r s [] (fun _ g => Some g).

(** [pattern.search(s)]: the match at the leftmost position that has one. *)
Fixpoint search (r : regex) (s : pystr) : option groups :=
  match match_at r s with
  | Some g => Some g
  | None =>
      match s with
      | [] => None
      | _ :: s' => search r s'
      end
  end.

(** What it means for a word to match a pattern (no priorities): [matches
    r w g g'] when [w] is in the language of [r] and the groups go from [g]
    to [g']. *)
Inductive matches : regex -> pystr -> groups -> groups -> Prop :=
| M_Eps g : matches Eps [] g g
| M_Lit c x g : lit_match c x = true -> matches (Lit c) [x] g g
| M_OneOf cs x g : class_match cs x = true -> matches (OneOf cs) [x] g g
| M_Rep cs lo hi w g :
    forallb (class_match cs) w = true ->
    (lo <= length w)%nat ->
    (forall h, hi = Some h -> (length w <= h)%nat) ->
    matches (Rep cs lo hi) w g g
| M_Seq r1 r2 w1 w2 g g1 g2 :
    matches r1 w1 g g1 -> matches r2 w2 g1 g2 ->
    matches (Seq r1 r2) (w1 ++ w2) g g2
| M_AltL r1 r2 w g g1 : matches r1 w g g1 -> matches (Alt r1 r2) w g g1
| M_AltR r1 r2 w g g1 : matches r2 w g g1 -> matches (Alt r1 r2) w g g1
| M_Group i r w g g1 :
    matches r w g g1 -> matches (Group i r) w g ((i, w) :: g1).

End Engine.

(** A compiled pattern: the expression and its flag. *)
Record pattern := Pattern { expr : regex; flag_ignorecase : bool }.

Definition pattern_search (p : pattern) (s : pystr) : option groups :=
  search (flag_ignorecase p) (expr p) s.

End Re.
Export Re.

(* ===================================================================== *)
(** * [float(...)] on decimal literals *)
(* ===================================================================== *)

Module PyFloat.

(** binary64 *)
Definition prec : Z := 53.
Definition emax : Z := 1024.

(** The binary64 number nearest to [n / 10^k] (ties to even; overflow to
    infinity), for [n >= 0]: the quotient is taken with enough bits and its
    remainder gives the rounding position, as in IEEE division. *)
Definition float_of_decimal (n : Z) (k : nat) : spec_float :=
  match n with
  | Z0 => S754_zero false
  | _ =>
      let '(q, e, l) :=
        SFdiv_core_binary prec emax n 0 (10 ^ Z.of_nat k) 0 in
      binary_round_aux prec emax false q e l
  end.

Definition is_digit (c : N) : bool := between 48 57 c.

Definition int_of_digits (ds : pystr) : Z :=
  fold_left (fun acc d => (10 * acc + (Z.of_N d - 48))%Z) ds 0%Z.

Fixpoint span_digits (s : pystr) : pystr * pystr :=
  match s with
  | c :: s' =>
      if is_digit c
      then let (ds, rest) := span_digits s' in (c :: ds, rest)
      else ([], s)
  | [] => ([], [])
  end.

(** [float(s)] for [s] of the shape digits or digits.digits, the only
    strings the parser passes to it.  [None] marks a string of another
    shape; Python accepts some of those (signs, exponents, blanks) and
    raises [ValueError] on the others, which this model does not tell
    apart. *)
Definition py_float (s : pystr) : option spec_float :=
  let (ip, rest) := span_digits s in
  match ip, rest with
  | [], _ => None
  | _ :: _, [] => Some (float_of_decimal (int_of_digits ip) 0)
  | _ :: _, c :: fp =>
      if (c =? 46)%N && negb (Nat.eqb (length fp) 0) && forallb is_digit fp
      then Some (float_of_decimal (int_of_digits (ip ++ fp)) (length fp))
      else None
  end.

(** [0.0 < x] and [0.0 <= x] as Python compares floats. *)
Definition float_pos (x : spec_float) : bool := SFltb (S754_zero false) x.
Definition float_nonneg (x : spec_float) : bool := SFleb (S754_zero false) x.

(** The exact rational a finite float stands for. *)
Definition float_to_Q (x : spec_float) : option Q :=
  match x with
  | S754_zero _ => Some 0%Q
  | S754_finite s m e =>
      let v := match e with
               | Zneg p => Qmake (Zpos m) (2 ^ p)
               | _ => inject_Z (Zpos m * 2 ^ e)
               end in
      Some (Qred (if s then Qopp v else v))
  | _ => None
  end.

End PyFloat.
Export PyFloat.

(* ===================================================================== *)
(** * [translator/parser.py] *)
(* ===================================================================== *)

(** ** Values of a payload *)

(** The Python values a payload is made of.  A [dict] keeps its keys in
    insertion order, which is also the order of the request body. *)
#[warnings="-register-all"]
Inductive pyval :=
| VInt (z : Z)
| VFloat (x : spec_float)
| VStr (s : pystr)
| VNone
| VDict (items : list (pystr * pyval)).

Definition dict := list (pystr * pyval).

(** [d[k]], [None] standing for [KeyError] *)
Fixpoint dict_get (k : pystr) (d : dict) : option pyval :=
  match d with
  | [] => None
  | (k', v) :: d' => if pystr_eqb k k' then Some v else dict_get k d'
  end.

(** [d[k] = v]: replaces the value of an existing key in place, appends a
    new key. *)
Fixpoint dict_set (k : pystr) (v : pyval) (d : dict) : dict :=
  match d with
  | [] => [(k, v)]
  | (k', v') :: d' =>
      if pystr_eqb k k' then (k', v) :: d' else (k', v') :: dict_set k v d'
  end.

Definition dict_keys (d : dict) : list pystr := map fst d.

(** ** [OrderInstruction] *)

Record OrderInstruction := {
  side : pystr;
  pair : pystr;
  quantity : spec_float;
  order_type : pystr;
  price : option spec_float
}.

Definition opt_float (x : option spec_float) : pyval :=
  match x with
  | Some v => VFloat v
  | None => VNone
  end.

(** [OrderInstruction.as_payload] *)
Definition as_payload (self : OrderInstruction) (account_id : Z) : dict :=
  let position :=
    [ (str "type",
       VStr (if pystr_eqb (order_type self) (str "market")
             then str "market" else str "limit"));
      (str "units", VDict [ (str "value", VFloat (quantity self)) ]) ] in
  let position :=
    if pystr_eqb (order_type self) (str "limit")
    then dict_set (str "price")
           (VDict [ (str "value", opt_float (price self)) ]) position
    else position in
  [ (str "account_id", VInt account_id);
    (str "pair", VStr (pair self));
    (str "position", VDict position) ].

(** ** [OrderParserError] *)

(** The source raises one class, [OrderParserError], with five different
    messages; each message is one constructor, named as the specification
    names the failure. *)
Inductive OrderParserError :=
| EmptyInstructionError
| AmbiguousSideError
| MissingPairError
| MissingQuantityError
| MissingPriceError.

Definition error_message (e : OrderParserError) : string :=
  match e with
  | EmptyInstructionError => "The instruction message is empty."
  | AmbiguousSideError =>
      "Could not determine whether the order is a buy or sell."
  | MissingPairError => "No trading pair detected in the instruction."
  | MissingQuantityError => "No quantity detected in the instruction."
  | MissingPriceError =>
      "No limit price found in the instruction while a limit order was requested."
  end.

(** The outcome of a call: a value, a raised [OrderParserError], or another
    exception ([float] refusing its argument, a group that did not take
    part in the match). *)
Inductive result (A : Type) :=
| Ok (a : A)
| Raise (e : OrderParserError)
| OtherError.
Arguments Ok {A} a.
Arguments Raise {A} e.
Arguments OtherError {A}.

Definition bind {A B} (r : result A) (f : A -> result B) : result B :=
  match r with
  | Ok a => f a
  | Raise e => Raise e
  | OtherError => OtherError
  end.

Notation "x <- e ;; k" := (bind e (fun x => k))
  (at level 61, e at next level, right associativity).

(** ** [OrderParser] *)

Definition e_grave : N := 232.
Definition e_acute : N := 233.
Definition a_grave : N := 224.

Definition BUY_TOKENS : list pystr :=
  [ str "buy"; str "ach" ++ [e_grave] ++ str "te"; str "achete"; str "achat" ].

Definition SELL_TOKENS : list pystr :=
  [ str "sell"; str "vends"; str "vendre"; str "vend"; str "revends";
    str "revendre" ].

Definition LIMIT_TOKENS : list pystr := [ str "limit"; str "limite" ].

Definition MARKET_TOKENS : list pystr :=
  [ str "market"; str "march" ++ [e_acute]; str "marche" ].

Definition upper_AZ : class := [ Range 65 90 ].
Definition digit_09 : class := [ Range 48 57 ].

(** [[0-9]+(?:[.,][0-9]+)?] *)
Definition number : regex :=
  Seq (Plus digit_09) (Opt (Seq (OneOf [ Ch 46; Ch 44 ]) (Plus digit_09))).

(** [([A-Z]{3,5})(?:[/\-]|)([A-Z]{3,5})] *)
Definition PAIR_PATTERN : pattern :=
  Pattern
    (Seq (Group 1 (Rep upper_AZ 3 (Some 5)))
       (Seq (Alt (OneOf [ Ch 47; Ch 45 ]) Eps)
          (Group 2 (Rep upper_AZ 3 (Some 5)))))
    false.

(** [(?:at|à)\s+([0-9]+(?:[.,][0-9]+)?)], IGNORECASE *)
Definition PRICE_PATTERN : pattern :=
  Pattern
    (Seq (Alt (lits (str "at")) (Lit a_grave))
       (Seq (Plus [ Space ]) (Group 1 number)))
    true.

(** [(?:buy|sell|ach(?:è|e)te|achat|vend(?:re|s)?)[\s:]+(?:[a-zA-Z]+\s+)?([0-9]+(?:[.,][0-9]+)?)],
    IGNORECASE *)
Definition QUANTITY_PATTERN : pattern :=
  Pattern
    (Seq
       (Alt (lits (str "buy"))
          (Alt (lits (str "sell"))
             (Alt (Seq (lits (str "ach"))
                     (Seq (Alt (Lit e_grave) (Lit 101)) (lits (str "te"))))
                (Alt (lits (str "achat"))
                   (Seq (lits (str "vend"))
                      (Opt (Alt (lits (str "re")) (Lit 115))))))))
       (Seq (Plus [ Space; Ch 58 ])
          (Seq (Opt (Seq (Plus [ Range 97 122; Range 65 90 ]) (Plus [ Space ])))
             (Group 1 number))))
    true.

(** [any(token in message for token in tokens)] *)
Definition any_token (tokens : list pystr) (message : pystr) : bool :=
  existsb (fun token => contains token message) tokens.

Definition _extract_side (message : pystr) : result pystr :=
  if any_token BUY_TOKENS message then Ok (str "buy")
  else if any_token SELL_TOKENS message then Ok (str "sell")
  else Raise AmbiguousSideError.

Definition _extract_order_type (message : pystr) : pystr :=
  if any_token LIMIT_TOKENS message then str "limit"
  else if any_token MARKET_TOKENS message then str "market"
  else str "market".

(** How an f-string writes a group: its text, or [None] for a group that
    took no part in the match. *)
Definition fmt_group (w : option pystr) : pystr :=
  match w with
  | Some t => t
  | None => str "None"
  end.

Definition _extract_pair (message : pystr) : result pystr :=
  match pattern_search PAIR_PATTERN (upper message) with
  | None => Raise MissingPairError
  | Some m => Ok (fmt_group (group 1 m) ++ str "_" ++ fmt_group (group 2 m))
  end.

(** [float(match.group(1).replace(",", "."))] *)
Definition float_of_group (m : groups) : result spec_float :=
  match group 1 m with
  | None => OtherError
  | Some lit =>
      match py_float (replace 44 46 lit) with
      | Some x => Ok x
      | None => OtherError
      end
  end.

Definition _extract_price (message : pystr) : result (option spec_float) :=
  match pattern_search PRICE_PATTERN message with
  | None => Ok None
  | Some m => x <- float_of_group m ;; Ok (Some x)
  end.

Definition _extract_quantity (message : pystr) : result spec_float :=
  match pattern_search QUANTITY_PATTERN message with
  | None => Raise MissingQuantityError
  | Some m => float_of_group m
  end.

Definition is_limit (order_type : pystr) : bool :=
  pystr_eqb order_type (str "limit").

Definition parse (message : pystr) : result OrderInstruction :=
  let normalized := strip message in
  match normalized with
  | [] => Raise EmptyInstructionError
  | _ :: _ =>
      let lower_message := lower normalized in
      side <- _extract_side lower_message ;;
      let order_type := _extract_order_type lower_message in
      pair <- _extract_pair normalized ;;
      quantity <- _extract_quantity lower_message ;;
      price <- (if is_limit order_type
                then _extract_price lower_message else Ok None) ;;
      match price with
      | None =>
          if is_limit order_type then Raise MissingPriceError
          else Ok (Build_OrderInstruction side pair quantity order_type price)
      | Some _ =>
          Ok (Build_OrderInstruction side pair quantity order_type price)
      end
  end.

(* ===================================================================== *)
(** * Vocabulary of the specification *)
(* ===================================================================== *)

(** An empty or whitespace-only message. *)
Definition whitespace_only (m : pystr) : bool := forallb is_space m.

Definition is_AZ (c : N) : bool := between 65 90 c.
Definition is_ascii_letter (c : N) : bool := is_AZ c || between 97 122 c.

(** [[A-Z]{3,5}] *)
Definition code_3_5 (w : pystr) : Prop :=
  3 <= length w <= 5 /\ forallb is_AZ w = true.

(** Nothing, [/] or [-] *)
Definition separator (w : pystr) : Prop := w = [] \/ w = [47%N] \/ w = [45%N].

(** [[A-Z]{3,5}_[A-Z]{3,5}] *)
Definition pair_shape (p : pystr) : Prop :=
  exists base quote,
    p = base ++ str "_" ++ quote /\ code_3_5 base /\ code_3_5 quote.

(** A run of 3-5 capitals, an optional separator and another run of 3-5
    capitals standing in [u] right after [pre]. *)
Definition pair_occurrence (u pre base sep quote post : pystr) : Prop :=
  u = pre ++ base ++ sep ++ quote ++ post /\
  code_3_5 base /\ separator sep /\ code_3_5 quote.

(** A numeric literal: digits, or digits, one of [.] and [,], digits. *)
Definition numeric_literal (w : pystr) : Prop :=
  exists ip, w <> [] /\ forallb is_digit ip = true /\ ip <> [] /\
    (w = ip \/
     exists c fp, w = ip ++ c :: fp /\ (c = 46%N \/ c = 44%N) /\
                  forallb is_digit fp = true /\ fp <> []).

(** [d[k1][k2]...] *)
Fixpoint dict_path (ks : list pystr) (v : pyval) : option pyval :=
  match ks with
  | [] => Some v
  | k :: ks' =>
      match v with
      | VDict d =>
          match dict_get k d with
          | Some v' => dict_path ks' v'
          | None => None
          end
      | _ => None
      end
  end.

(** An instruction with every field extracted: a side, a pair of the
    normalised shape, a quantity that is a number not below zero, an order
    type, and a price exactly when the order is a limit order. *)
Definition complete_order (o : OrderInstruction) : Prop :=
  (side o = str "buy" \/ side o = str "sell") /\
  pair_shape (pair o) /\
  float_nonneg (quantity o) = true /\
  ((order_type o = str "market" /\ price o = None) \/
   (order_type o = str "limit" /\
    exists p, price o = Some p /\ float_nonneg p = true)).

(** The invariants the data model asks of an order. *)
Definition data_model_invariants (o : OrderInstruction) : Prop :=
  float_pos (quantity o) = true /\
  (order_type o = str "limit" ->
   exists p, price o = Some p /\ float_pos p = true) /\
  (order_type o = str "market" -> price o = None).

(** The whitespace-separated words of a message, as [s.split()] gives
    them. *)
Fixpoint words_from (cur s : pystr) : list pystr :=
  match s with
  | [] =>
      match cur with
      | [] => []
      | _ :: _ => [rev cur]
      end
  | c :: s' =>
      if is_space c then
        match cur with
        | [] => words_from [] s'
        | _ :: _ => rev cur :: words_from [] s'
        end
      else words_from (c :: cur) s'
  end.

Definition words (s : pystr) : list pystr := words_from [] s.

(** The keys of the [position] block of a payload. *)
Definition position_keys (payload : dict) : option (list pystr) :=
  match dict_get (str "position") payload with
  | Some (VDict position) => Some (dict_keys position)
  | _ => None
  end.

(** The literal [lit] stops where the number stops: what follows does not
    go on with a digit, nor, after a whole number, with a decimal separator
    and a digit. *)
Definition ends_number (lit rest : pystr) : Prop :=
  (forall d r, rest = d :: r -> is_digit d = false) /\
  (forallb is_digit lit = true ->
   forall c d r, rest = c :: d :: r -> c = 46%N \/ c = 44%N ->
                 is_digit d = false).


(** Whitespace or a colon: the class [[\s:]]. *)
Definition is_blank_or_colon (c : N) : bool := is_space c || (c =? 58)%N.


(** The first part of the quantity pattern:
    [(?:buy|sell|ach(?:è|e)te|achat|vend(?:re|s)?)]. *)
Definition action_regex : regex :=
  Alt (lits (str "buy"))
    (Alt (lits (str "sell"))
       (Alt (Seq (lits (str "ach"))
               (Seq (Alt (Lit e_grave) (Lit 101)) (lits (str "te"))))
          (Alt (lits (str "achat"))
             (Seq (lits (str "vend"))
                (Opt (Alt (lits (str "re")) (Lit 115))))))).

(** Every field of [o] is what its extraction step reads in the stripped
    message: the side of the first token set that is present, the two
    groups of the pair match joined by an underscore, [float] of the group
    of the quantity match, the resolved order type, and [float] of the
    group of the price match for a limit order, no price otherwise. *)
Definition fields_extracted (normalized : pystr) (o : OrderInstruction)
  : Prop :=
  let low := lower normalized in
  side o = (if any_token BUY_TOKENS low then str "buy" else str "sell") /\
  (exists mp,
     pattern_search PAIR_PATTERN (upper normalized) = Some mp /\
     pair o = fmt_group (group 1 mp) ++ str "_" ++ fmt_group (group 2 mp)) /\
  (exists mq lit,
     pattern_search QUANTITY_PATTERN low = Some mq /\
     group 1 mq = Some lit /\
     py_float (replace 44 46 lit) = Some (quantity o)) /\
  order_type o = _extract_order_type low /\
  (if is_limit (_extract_order_type low)
   then exists mpr lit p,
          pattern_search PRICE_PATTERN low = Some mpr /\
          group 1 mpr = Some lit /\
          py_float (replace 44 46 lit) = Some p /\
          price o = Some p
   else price o = None).

(* ===================================================================== *)
(** * Python values: truth, [str()], [int()] *)
(* ===================================================================== *)

Module PyVal.

(** [bool(v)]: [None], zero, the empty string and the empty dict are
    false. *)
Definition truthy (v : pyval) : bool :=
  match v with
  | VNone => false
  | VInt z => negb (z =? 0)%Z
  | VFloat (S754_zero _) => false
  | VFloat _ => true
  | VStr s => negb (Nat.eqb (length s) 0)
  | VDict d => negb (Nat.eqb (length d) 0)
  end.

(** [d.get(k, default)] *)
Definition dict_get_or (k : pystr) (default : pyval) (d : dict) : pyval :=
  match dict_get k d with
  | Some v => v
  | None => default
  end.

(** [d.get(k)] *)
Definition py_get (k : pystr) (d : dict) : pyval := dict_get_or k VNone d.

(** [str(z)] for an integer: its decimal digits, with a minus sign below
    zero (for an integer within the digit limit of the interpreter, which
    every time stamp is). *)
Definition str_of_int (z : Z) : pystr :=
  str (DecimalString.NilZero.string_of_int (Z.to_int z)).

(** [sep.join(parts)] *)
Fixpoint join (sep : pystr) (parts : list pystr) : pystr :=
  match parts with
  | [] => []
  | [p] => p
  | p :: rest => p ++ sep ++ join sep rest
  end.

(** The blanks [int()] skips around a number: the ASCII ones and the
    whitespace characters from U+0080 on. *)
Definition int_space (c : N) : bool :=
  between 9 13 c || (c =? 32)%N || ((128 <=? c)%N && is_space c).

(** Digits, single underscores allowed between two digits. *)
Fixpoint digits_value (acc : Z) (after_digit : bool) (s : pystr) : option Z :=
  match s with
  | [] => if after_digit then Some acc else None
  | c :: t =>
      if is_digit c
      then digits_value (10 * acc + (Z.of_N c - 48))%Z true t
      else if (c =? 95)%N && after_digit then digits_value acc false t
      else None
  end.

(** The guard of [int] against long inputs: more than 640 digit
    characters (underscores and the sign do not count, leading zeros do)
    and more than a limit that is not zero. *)
Definition over_digit_limit (limit : nat) (s : pystr) : bool :=
  let digits := length (filter is_digit s) in
  Nat.ltb 640 digits && Nat.ltb 0 limit && Nat.ltb limit digits.

(** [int(s)] for a string of code points up to U+00FF; [None] is
    [ValueError].  [limit] is [sys.get_int_max_str_digits()]: 4300 unless
    the interpreter is told otherwise, 0 for no limit.  (The decimal
    digits of other scripts, which [int] also reads, lie above that
    range.) *)
Definition py_int (limit : nat) (s : pystr) : option Z :=
  let body := rev (dropwhile int_space (rev (dropwhile int_space s))) in
  if over_digit_limit limit body then None
  else
    match body with
    | 43%N :: t => digits_value 0 false t
    | 45%N :: t => option_map Z.opp (digits_value 0 false t)
    | _ => digits_value 0 false body
    end.

End PyVal.

(* ===================================================================== *)
(** * [translator/client.py] *)
(* ===================================================================== *)

Module Client.
Import PyVal.

(** [ThreeCommasConfig] *)
Record ThreeCommasConfig := {
  api_key : pystr;
  api_secret : pystr;
  account_id : Z;
  base_url : pystr;
  timeout : Z;
  dry_run : bool
}.

(** The constructor with the defaults of the dataclass left alone. *)
Definition new_config (key secret : pystr) (account : Z) (dry : bool)
  : ThreeCommasConfig :=
  {| api_key := key; api_secret := secret; account_id := account;
     base_url := str "https://api.3commas.io/public/api"; timeout := 30;
     dry_run := dry |}.

(** The arguments of one [requests.request(...)] call. *)
Record http_request := {
  req_method : pystr;
  req_url : pystr;
  req_data : pystr;
  req_headers : list (pystr * pystr);
  req_timeout : Z
}.

(** What the client takes from outside the repository.
    - [clock]: [int(time.time())] at the moment of signing (the integer
      part of a float: at most 309 digits, which [str] always writes);
    - [hexdigest secret body]:
      [hmac.new(secret.encode("utf-8"), body.encode("utf-8"),
      hashlib.sha256).hexdigest()], or [None] when it raises (a string
      that cannot be encoded);
    - [json_dumps d]: [json.dumps(d, separators=(",", ":"))];
    - [str_other v]: [str(v)] for a float or a dict;
    - [respond r]: the exchange [requests.request] makes for [r], followed
      by [raise_for_status()] and [json()]: the decoded answer, or [None]
      when one of the three raises;
    - [int_max_str_digits]: [sys.get_int_max_str_digits()], the longest
      digit string [int] converts (0: any length). *)
Record externals := {
  clock : Z;
  hexdigest : pystr -> pystr -> option pystr;
  json_dumps : dict -> pystr;
  str_other : pyval -> pystr;
  respond : http_request -> option pyval;
  int_max_str_digits : nat
}.

(** An exception of a library is not an [OrderParserError]. *)
Definition library_call (A : Type) (outcome : option A) : result A :=
  match outcome with
  | Some a => Ok a
  | None => OtherError
  end.

(** A call that may send requests: from the requests sent so far to its
    outcome and the requests sent after it (oldest first). *)
Definition io (A : Type) : Type :=
  list http_request -> result A * list http_request.

Section WithExternals.

Variable ext : externals.

(** [str(v)], as an f-string writes [v]. *)
Definition py_str (v : pyval) : pystr :=
  match v with
  | VStr s => s
  | VNone => str "None"
  | VInt z => str_of_int z
  | _ => str_other ext v
  end.

(** [ThreeCommasClient._sign] *)
Definition _sign (config : ThreeCommasConfig) (payload : pystr)
  : result pystr :=
  let timestamp := str_of_int (clock ext) in
  let body := timestamp ++ payload in
  digest <- library_call (hexdigest ext (api_secret config) body) ;;
  Ok (timestamp ++ str ":" ++ digest).

(** [ThreeCommasClient._request]; the log line of a dry run is not
    modelled. *)
Definition _request (config : ThreeCommasConfig) (method endpoint : pystr)
  (payload : option dict) : io pyval :=
  fun sent =>
    let url := base_url config ++ endpoint in
    let payload :=
      match payload with
      | Some ((_ :: _) as d) => d
      | _ => []
      end in
    let body := json_dumps ext payload in
    match _sign config body with
    | Ok signature =>
        let headers :=
          [ (str "APIKEY", api_key config);
            (str "Signature", signature);
            (str "Content-Type", str "application/json") ] in
        if dry_run config then
          (Ok (VDict [ (str "status", VStr (str "dry_run"));
                       (str "method", VStr method);
                       (str "url", VStr url);
                       (str "payload", VDict payload) ]),
           sent)
        else
          let request :=
            {| req_method := method; req_url := url; req_data := body;
               req_headers := headers; req_timeout := timeout config |} in
          (library_call (respond ext request), sent ++ [request])
    | Raise e => (Raise e, sent)
    | OtherError => (OtherError, sent)
    end.

(** [ThreeCommasClient._infer_side_from_position]; asking a value that is
    not a dict for its [type] raises [AttributeError]. *)
Definition _infer_side_from_position (instruction : dict) : result pyval :=
  let side := py_get (str "side") instruction in
  if truthy side then Ok side
  else
    match dict_get_or (str "position") (VDict []) instruction with
    | VDict position =>
        match py_get (str "type") position with
        | VStr t =>
            if pystr_eqb t (str "sell") then Ok (VStr (str "sell"))
            else Ok (VStr (str "buy"))
        | _ => Ok (VStr (str "buy"))
        end
    | _ => OtherError
    end.

(** [{k: v for k, v in instruction.items() if k != "side"}] *)
Definition without_side (instruction : dict) : dict :=
  filter (fun kv => negb (pystr_eqb (fst kv) (str "side"))) instruction.

(** [ThreeCommasClient.create_simple_trade] *)
Definition create_simple_trade (config : ThreeCommasConfig)
  (instruction : dict) : io pyval :=
  fun sent =>
    let given := py_get (str "side") instruction in
    match (if truthy given then Ok given
           else _infer_side_from_position instruction) with
    | Ok side =>
        let endpoint :=
          str "/ver1/smart_trades/create_simple_" ++ py_str side in
        let payload := without_side instruction in
        _request config (str "POST") endpoint (Some payload) sent
    | Raise e => (Raise e, sent)
    | OtherError => (OtherError, sent)
    end.

End WithExternals.

End Client.

(* ===================================================================== *)
(** * [translator/translator.py] *)
(* ===================================================================== *)

Module Glue.
Import PyVal Client.

(** [Translator.translate_and_execute]; the translator is its client's
    configuration, the parser has no state. *)
Definition translate_and_execute (ext : externals)
  (config : ThreeCommasConfig) (message : pystr) : io pyval :=
  fun sent =>
    match parse message with
    | Ok instruction =>
        let payload := as_payload instruction (account_id config) in
        let payload := dict_set (str "side") (VStr (side instruction)) payload in
        create_simple_trade ext config payload sent
    | Raise e => (Raise e, sent)
    | OtherError => (OtherError, sent)
    end.

End Glue.

(* ===================================================================== *)
(** * [translator/main.py] *)
(* ===================================================================== *)

Module Cli.
Import PyVal Client Glue.

(** What [parse_args] returns. *)
Record arguments := {
  arg_message : option pystr;
  arg_dry_run : bool;
  arg_env_file : pystr
}.

(** How a run ends: [main] returns a code, [SystemExit] is raised with a
    message, or another exception leaves [main]. *)
Inductive ending :=
| Return (code : Z)
| SystemExit (message : pystr)
| Uncaught.

(** [not value] for what [os.getenv] returned. *)
Definition unset (value : option pystr) : bool :=
  match value with
  | None => true
  | Some [] => true
  | Some (_ :: _) => false
  end.

Definition KEY : pystr := str "THREECOMMAS_API_KEY".
Definition SECRET : pystr := str "THREECOMMAS_API_SECRET".
Definition ACCOUNT : pystr := str "THREECOMMAS_ACCOUNT_ID".

(** The names [load_config] reports as missing. *)
Definition missing_names (getenv : pystr -> option pystr) : list pystr :=
  map fst
    (filter (fun nv => unset (snd nv))
       [ (KEY, getenv KEY); (SECRET, getenv SECRET);
         (ACCOUNT, getenv ACCOUNT) ]).

(** [load_config]; [getenv] is the environment as [load_dotenv] leaves
    it.  The result is a configuration, the message of a [SystemExit], or
    nothing when [int] refuses the account identifier. *)
Definition load_config (ext : externals) (getenv : pystr -> option pystr)
  (dry : bool) : option (ThreeCommasConfig + pystr) :=
  match getenv KEY, getenv SECRET, getenv ACCOUNT with
  | Some ((_ :: _) as key), Some ((_ :: _) as secret), Some ((_ :: _) as account) =>
      match py_int (int_max_str_digits ext) account with
      | Some n => Some (inl (new_config key secret n dry))
      | None => None
      end
  | _, _, _ =>
      Some (inr (str "Missing environment variables: "
                 ++ join (str ", ") (missing_names getenv)
                 ++ str ". Configure them or provide an .env file."))
  end.

(** [main], from the parsed arguments on; printing and logging are not
    modelled. *)
Definition main (ext : externals) (getenv : pystr -> option pystr)
  (args : arguments) : list http_request -> ending * list http_request :=
  fun sent =>
    match arg_message args with
    | None | Some [] => (Return 1, sent)
    | Some ((_ :: _) as message) =>
        match load_config ext getenv (arg_dry_run args) with
        | None => (Uncaught, sent)
        | Some (inr text) => (SystemExit text, sent)
        | Some (inl config) =>
            match translate_and_execute ext config message sent with
            | (Ok _, sent') => (Return 0, sent')
            | (Raise _, sent') => (Return 2, sent')
            | (OtherError, sent') => (Return 3, sent')
            end
        end
    end.

End Cli.

(** ** Vocabulary for the client *)

(** The endpoint of one side. *)
Definition endpoint_for (side : pystr) : pystr :=
  str "/ver1/smart_trades/create_simple_" ++ side.

(** The request the client signs and sends for a payload. *)
Definition signed_request (ext : Client.externals)
  (config : Client.ThreeCommasConfig) (endpoint : pystr) (payload : dict)
  (signature : pystr) : Client.http_request :=
  {| Client.req_method := str "POST";
     Client.req_url := Client.base_url config ++ endpoint;
     Client.req_data := Client.json_dumps ext payload;
     Client.req_headers :=
       [ (str "APIKEY", Client.api_key config);
         (str "Signature", signature);
         (str "Content-Type", str "application/json") ];
     Client.req_timeout := Client.timeout config |}.

(** The answer of a dry run. *)
Definition dry_run_answer (config : Client.ThreeCommasConfig)
  (endpoint : pystr) (payload : dict) : pyval :=
  VDict [ (str "status", VStr (str "dry_run"));
          (str "method", VStr (str "POST"));
          (str "url", VStr (Client.base_url config ++ endpoint));
          (str "payload", VDict payload) ].

(** An outside world for examples: a fixed clock and digest, an empty
    JSON text, a server that answers [null]. *)
Definition quiet_world : Client.externals :=
  {| Client.clock := 1700000000;
     Client.hexdigest := fun _ _ => Some (str "c0ffee");
     Client.json_dumps := fun _ => str "{}";
     Client.str_other := fun _ => [];
     Client.respond := fun _ => Some VNone;
     Client.int_max_str_digits := 4300 |}.

(** An environment for examples, with the three variables set. *)
Definition full_environment (name : pystr) : option pystr :=
  if pystr_eqb name Cli.KEY then Some (str "key")
  else if pystr_eqb name Cli.SECRET then Some (str "secret")
  else if pystr_eqb name Cli.ACCOUNT then Some (str " 42 ")
  else None.

(** The text of the [SystemExit] of [load_config]. *)
Definition missing_text (names : list pystr) : pystr :=
  str "Missing environment variables: " ++ PyVal.join (str ", ") names
  ++ str ". Configure them or provide an .env file.".

(* ===================================================================== *)
(** * The matcher against the meaning of patterns *)
(* ===================================================================== *)

Section EngineFacts.

Variable ic : bool.

Lemma greedy_sound (A : Type) (p : N -> bool) (s : pystr) :
  forall lo hi (k : pystr -> option A) a,
    greedy p lo hi s k = Some a ->
    exists w s',
      s = w ++ s' /\ forallb p w = true /\ lo <= length w /\
      (forall h, hi = Some h -> length w <= h) /\ k s' = Some a.
Proof.
  assert (stop : forall lo hi (k : pystr -> option A) a t,
             match lo with O => k t | S _ => None end = Some a ->
             exists w s',
               t = w ++ s' /\ forallb p w = true /\ lo <= length w /\
               (forall h, hi = Some h -> length w <= h) /\ k s' = Some a).
  { intros [|lo] hi k a t H; [|discriminate].
    exists [], t; simpl; repeat split; auto with arith. }
  induction s as [|c s' IH]; intros lo hi k a H.
  - apply stop. destruct hi as [[|h]|]; exact H.
  - assert (step : forall hi',
               (forall h, hi = Some h -> exists h', h = S h' /\ hi' = Some h') ->
               (hi = None -> hi' = None) ->
               greedy p (pred lo) hi' s' k = Some a ->
               p c = true ->
               exists w s'',
                 c :: s' = w ++ s'' /\ forallb p w = true /\ lo <= length w /\
                 (forall h, hi = Some h -> length w <= h) /\ k s'' = Some a).
    { intros hi' Hs Hn G Pc.
      destruct (IH _ _ _ _ G) as (w & s'' & -> & Fw & Lo & Hi & K).
      exists (c :: w), s''; simpl; rewrite Pc, Fw; repeat split; auto.
      - lia.
      - intros h Hh. destruct (Hs _ Hh) as (h' & -> & Hh').
        specialize (Hi _ Hh'). lia. }
    simpl in H. destruct hi as [[|h]|].
    + apply stop; exact H.
    + destruct (p c) eqn:Pc; [|apply stop; exact H].
      simpl in H.
      destruct (greedy p (pred lo) (Some h) s' k) as [a'|] eqn:G;
        [|apply stop; exact H].
      injection H as <-.
      apply (step (Some h)); auto; [|discriminate].
      intros h0 [= <-]; eauto.
    + destruct (p c) eqn:Pc; [|apply stop; exact H].
      simpl in H.
      destruct (greedy p (pred lo) None s' k) as [a'|] eqn:G;
        [|apply stop; exact H].
      injection H as <-.
      apply (step None); auto. discriminate.
Qed.

Lemma greedy_complete (A : Type) (p : N -> bool) (w : pystr) :
  forall lo hi s' (k : pystr -> option A),
    forallb p w = true ->
    lo <= length w ->
    (forall h, hi = Some h -> length w <= h) ->
    k s' <> None ->
    greedy p lo hi (w ++ s') k <> None.
Proof.
  induction w as [|c w IH]; intros lo hi s' k Fw Lo Hi K.
  - simpl in Lo. assert (lo = 0) as -> by lia.
    destruct s' as [|x s'']; simpl.
    + destruct hi as [[|h]|]; exact K.
    + destruct hi as [[|h]|]; try exact K;
        destruct (p x); try exact K;
        match goal with
        | |- context [greedy p ?a ?b ?c ?d] => destruct (greedy p a b c d)
        end; try exact K; discriminate.
  - simpl in Fw. apply andb_prop in Fw as [Pc Fw]. simpl in Lo.
    assert (rec : forall hi', (forall h, hi' = Some h -> length w <= h) ->
              greedy p (pred lo) hi' (w ++ s') k <> None).
    { intros hi' Hi'. apply IH; auto. lia. }
    simpl. destruct hi as [[|h]|].
    + specialize (Hi _ eq_refl). simpl in Hi. lia.
    + rewrite Pc. simpl.
      assert (G : greedy p (pred lo) (Some h) (w ++ s') k <> None).
      { apply rec. intros h0 [= <-]. specialize (Hi _ eq_refl).
        simpl in Hi. lia. }
      destruct (greedy p (pred lo) (Some h) (w ++ s') k); congruence.
    + rewrite Pc. simpl.
      assert (G : greedy p (pred lo) None (w ++ s') k <> None).
      { apply rec. discriminate. }
      destruct (greedy p (pred lo) None (w ++ s') k); congruence.
Qed.

Lemma firstn_consumed (w s' : pystr) :
  firstn (length (w ++ s') - length s') (w ++ s') = w.
Proof.
  rewrite length_app, Nat.add_sub.
  rewrite firstn_app, Nat.sub_diag, firstn_all. simpl.
  apply app_nil_r.
Qed.

(** Whatever the matcher returns comes from a word of the pattern's
    language at the head of the input, followed by a success of the rest. *)
Lemma exec_sound (A : Type) (r : regex) :
  forall s g (k : pystr -> groups -> option A) a,
    exec ic r s g k = Some a ->
    exists w s' g',
      s = w ++ s' /\ matches ic r w g g' /\ k s' g' = Some a.
Proof.
  induction r as [|c|cs|cs lo hi|r1 IH1 r2 IH2|r1 IH1 r2 IH2|i r IH];
    intros s g k a H; simpl in H.
  - exists [], s, g; repeat split; auto. constructor.
  - destruct s as [|x s']; [discriminate|].
    destruct (lit_match ic c x) eqn:E; [|discriminate].
    exists [x], s', g; repeat split; auto. now constructor.
  - destruct s as [|x s']; [discriminate|].
    destruct (class_match ic cs x) eqn:E; [|discriminate].
    exists [x], s', g; repeat split; auto. now constructor.
  - apply greedy_sound in H as (w & s' & -> & Fw & Lo & Hi & K).
    exists w, s', g; repeat split; auto. now constructor.
  - apply IH1 in H as (w1 & s1 & g1 & -> & M1 & H).
    apply IH2 in H as (w2 & s2 & g2 & -> & M2 & K).
    exists (w1 ++ w2), s2, g2; repeat split; auto.
    + now rewrite app_assoc.
    + econstructor; eauto.
  - destruct (exec ic r1 s g k) as [a'|] eqn:E.
    + injection H as <-.
      apply IH1 in E as (w & s' & g' & -> & M & K).
      exists w, s', g'; repeat split; auto. now apply M_AltL.
    + apply IH2 in H as (w & s' & g' & -> & M & K).
      exists w, s', g'; repeat split; auto. now apply M_AltR.
  - apply IH in H as (w & s' & g' & -> & M & K).
    rewrite firstn_consumed in K.
    exists w, s', ((i, w) :: g'); repeat split; auto. now constructor.
Qed.

(** If some word of the language at the head of the input lets the rest of
    the pattern succeed, the matcher succeeds (possibly on another word,
    which it prefers). *)
Lemma exec_complete (A : Type) (r : regex) (w : pystr) (g g' : groups) :
  matches ic r w g g' ->
  forall s' (k : pystr -> groups -> option A),
    k s' g' <> None -> exec ic r (w ++ s') g k <> None.
Proof.
  induction 1 as [g|c x g E|cs x g E|cs lo hi w g Fw Lo Hi
                 |r1 r2 w1 w2 g g1 g2 _ IH1 _ IH2
                 |r1 r2 w g g1 _ IH|r1 r2 w g g1 _ IH|i r w g g1 _ IH];
    intros s' k K; simpl.
  - exact K.
  - now rewrite E.
  - now rewrite E.
  - now apply greedy_complete.
  - rewrite <- app_assoc. apply IH1. now apply IH2.
  - specialize (IH s' k K). destruct (exec ic r1 (w ++ s') g k); congruence.
  - specialize (IH s' k K).
    destruct (exec ic r1 (w ++ s') g k); [discriminate|exact IH].
  - apply IH. now rewrite firstn_consumed.
Qed.

Lemma match_at_sound (r : regex) (s : pystr) (m : groups) :
  match_at ic r s = Some m ->
  exists w s', s = w ++ s' /\ matches ic r w [] m.
Proof.
  intros H. apply exec_sound in H as (w & s' & g' & -> & M & [= ->]).
  now exists w, s'.
Qed.

Lemma match_at_complete (r : regex) (w s' : pystr) (m : groups) :
  matches ic r w [] m -> match_at ic r (w ++ s') <> None.
Proof.
  intros M. unfold match_at. now apply (exec_complete M).
Qed.

(** [search] returns the match at the first position that has one. *)
Lemma search_leftmost (r : regex) (s : pystr) (m : groups) :
  search ic r s = Some m ->
  exists pre rest,
    s = pre ++ rest /\ match_at ic r rest = Some m /\
    forall pre' rest',
      s = pre' ++ rest' -> length pre' < length pre ->
      match_at ic r rest' = None.
Proof.
  induction s as [|c s IH]; simpl.
  - destruct (match_at ic r []) eqn:E; [|discriminate].
    intros [= ->]. exists [], []; repeat split; auto.
    intros pre' rest' _ L. simpl in L. lia.
  - destruct (match_at ic r (c :: s)) eqn:E.
    + intros [= ->]. exists [], (c :: s); repeat split; auto.
      intros pre' rest' _ L. simpl in L. lia.
    + intros H. destruct (IH H) as (pre & rest & -> & M & Least).
      exists (c :: pre), rest; repeat split; auto.
      intros [|c' pre'] rest' Eq L.
      * simpl in Eq. now subst rest'.
      * simpl in Eq. injection Eq as <- Eq. apply (Least pre' rest' Eq).
        simpl in L. lia.
Qed.

Lemma search_none (r : regex) (s : pystr) :
  search ic r s = None <->
  forall pre rest, s = pre ++ rest -> match_at ic r rest = None.
Proof.
  induction s as [|c s IH]; simpl.
  - destruct (match_at ic r []) eqn:E; split; try discriminate.
    + intros H. now rewrite <- (H [] []).
    + intros _ pre rest Eq. symmetry in Eq.
      apply app_eq_nil in Eq as [_ ->]. exact E.
    + auto.
  - destruct (match_at ic r (c :: s)) eqn:E; split; try discriminate.
    + intros H. now rewrite <- (H [] (c :: s)).
    + intros H [|c' pre] rest Eq; simpl in Eq.
      * now subst rest.
      * injection Eq as <- Eq. now apply (proj1 IH H pre).
    + intros H. apply IH. intros pre rest ->. now apply (H (c :: pre)).
Qed.

Lemma search_complete (r : regex) (pre w post : pystr) (m : groups) :
  matches ic r w [] m -> search ic r (pre ++ w ++ post) <> None.
Proof.
  intros M H. rewrite search_none in H.
  now apply (match_at_complete post M), (H pre).
Qed.

(** Inversion of [matches], one lemma per form of pattern. *)
Lemma matches_Eps (w : pystr) (g g' : groups) :
  matches ic Eps w g g' -> w = [] /\ g' = g.
Proof. inversion 1; auto. Qed.

Lemma matches_Lit (c : N) (w : pystr) (g g' : groups) :
  matches ic (Lit c) w g g' ->
  exists x, w = [x] /\ lit_match ic c x = true /\ g' = g.
Proof. inversion 1; subst; eauto. Qed.

Lemma matches_OneOf (cs : class) (w : pystr) (g g' : groups) :
  matches ic (OneOf cs) w g g' ->
  exists x, w = [x] /\ class_match ic cs x = true /\ g' = g.
Proof. inversion 1; subst; eauto. Qed.

Lemma matches_Rep (cs : class) (lo : nat) (hi : option nat) (w : pystr)
  (g g' : groups) :
  matches ic (Rep cs lo hi) w g g' ->
  forallb (class_match ic cs) w = true /\ lo <= length w /\
  (forall h, hi = Some h -> length w <= h) /\ g' = g.
Proof. inversion 1; subst; auto. Qed.

Lemma matches_Seq (r1 r2 : regex) (w : pystr) (g g' : groups) :
  matches ic (Seq r1 r2) w g g' ->
  exists w1 w2 g1,
    w = w1 ++ w2 /\ matches ic r1 w1 g g1 /\ matches ic r2 w2 g1 g'.
Proof. inversion 1; subst; eauto 6. Qed.

Lemma matches_Alt (r1 r2 : regex) (w : pystr) (g g' : groups) :
  matches ic (Alt r1 r2) w g g' ->
  matches ic r1 w g g' \/ matches ic r2 w g g'.
Proof. inversion 1; subst; auto. Qed.

Lemma matches_Group (i : nat) (r : regex) (w : pystr) (g g' : groups) :
  matches ic (Group i r) w g g' ->
  exists g1, matches ic r w g g1 /\ g' = (i, w) :: g1.
Proof. inversion 1; subst; eauto. Qed.

End EngineFacts.

(* ===================================================================== *)
(** * Facts on strings *)
(* ===================================================================== *)

Section StringFacts.

Variable p : N -> bool.

Lemma dropwhile_nil (s : pystr) :
  dropwhile p s = [] <-> forallb p s = true.
Proof.
  induction s as [|c s IH]; simpl; [tauto|].
  destruct (p c); simpl; [exact IH|].
  split; discriminate.
Qed.

Lemma dropwhile_head (s : pystr) :
  dropwhile p s = [] \/ exists c t, dropwhile p s = c :: t /\ p c = false.
Proof.
  induction s as [|c s IH]; simpl; auto.
  destruct (p c) eqn:E; auto. right; eauto.
Qed.

(** Dropping a prefix never reaches past a character that is kept. *)
Lemma dropwhile_app_keep (a b : pystr) (x : N) :
  p x = false ->
  exists a', dropwhile p (a ++ x :: b) = a' ++ x :: b.
Proof.
  intros Px. induction a as [|c a IH]; simpl.
  - rewrite Px. now exists [].
  - destruct (p c); [exact IH|]. now exists (c :: a).
Qed.

End StringFacts.

Lemma strip_nil (s : pystr) : strip s = [] <-> whitespace_only s = true.
Proof.
  unfold strip, rstrip, lstrip, whitespace_only. split.
  - intros H. apply (f_equal (@rev N)) in H. rewrite rev_involutive in H.
    simpl in H. apply dropwhile_nil in H. rewrite forallb_forall in H.
    destruct (dropwhile_head is_space s) as [E|(c & t & E & Pc)].
    + now apply dropwhile_nil.
    + specialize (H c). rewrite E in H.
      rewrite H in Pc; [discriminate|]. apply in_rev.
      rewrite rev_involutive. now left.
  - intros H. apply dropwhile_nil in H. now rewrite H.
Qed.

(** A non-empty stretch without whitespace survives [strip]. *)
Lemma strip_keeps (pre run post : pystr) :
  run <> [] -> forallb (fun c => negb (is_space c)) run = true ->
  exists pre' post', strip (pre ++ run ++ post) = pre' ++ run ++ post'.
Proof.
  intros Ne Hrun. rewrite forallb_forall in Hrun.
  assert (first : exists x t, run = x :: t /\ is_space x = false).
  { destruct run as [|x t]; [congruence|]. exists x, t; split; auto.
    apply negb_true_iff, Hrun. now left. }
  assert (last : exists y t, rev run = y :: t /\ is_space y = false).
  { destruct (rev run) as [|y t] eqn:E.
    - apply (f_equal (@rev N)) in E. rewrite rev_involutive in E.
      simpl in E. congruence.
    - exists y, t; split; auto. apply negb_true_iff, Hrun, in_rev.
      rewrite E. now left. }
  destruct first as (x & t & Ex & Px), last as (y & u & Ey & Py).
  unfold strip, rstrip, lstrip.
  assert (L : exists a, dropwhile is_space (pre ++ run ++ post)
                        = a ++ run ++ post).
  { rewrite Ex. simpl. now apply dropwhile_app_keep. }
  destruct L as (a & ->).
  rewrite !rev_app_distr, <- app_assoc, Ey. simpl.
  destruct (dropwhile_app_keep is_space (rev post) (u ++ rev a) y Py)
    as (b & ->).
  exists a, (rev b).
  assert (R : run = rev u ++ [y]).
  { rewrite <- (rev_involutive run), Ey. reflexivity. }
  rewrite R, rev_app_distr. simpl.
  rewrite rev_app_distr, rev_involutive.
  now rewrite <- !app_assoc.
Qed.

Lemma upper_app (a b : pystr) : upper (a ++ b) = upper a ++ upper b.
Proof. unfold upper. apply flat_map_app. Qed.


Ltac n_bools :=
  repeat match goal with
    | H : _ && _ = true |- _ => apply andb_prop in H as [? ?]
    | H : _ || _ = true |- _ => apply orb_prop in H as [?|?]
    | H : (_ <=? _)%N = true |- _ => apply N.leb_le in H
    | H : (_ <=? _)%N = false |- _ => apply N.leb_gt in H
    | H : (_ =? _)%N = true |- _ => apply N.eqb_eq in H
    | H : (_ =? _)%N = false |- _ => apply N.eqb_neq in H
    | H : negb _ = true |- _ => apply negb_true_iff in H
    | H : negb _ = false |- _ => apply negb_false_iff in H
    | H : _ && _ = false |- _ => apply andb_false_iff in H as [?|?]
    | H : _ || _ = false |- _ => apply orb_false_iff in H as [? ?]
    end.

Lemma between_spec (lo hi x : N) :
  between lo hi x = true <-> (lo <= x <= hi)%N.
Proof.
  unfold between. rewrite andb_true_iff, !N.leb_le. tauto.
Qed.

(** [str.upper] turns an ASCII letter into one capital A-Z. *)
Lemma upper_cp_letter (c : N) :
  is_ascii_letter c = true ->
  exists u, upper_cp c = [u] /\ is_AZ u = true.
Proof.
  unfold is_ascii_letter, is_AZ, upper_cp, simple_upper_cp. intros H.
  destruct (c =? 223)%N eqn:E1.
  { n_bools; rewrite between_spec in *; lia. }
  destruct (between 97 122 c) eqn:E2.
  - exists (c - 32)%N. split; auto. rewrite between_spec in *. lia.
  - rewrite orb_false_r in H.
    assert (between 224 254 c = false) as ->.
    { apply not_true_is_false. rewrite between_spec in *. lia. }
    simpl.
    assert ((c =? 181)%N = false) as ->.
    { apply N.eqb_neq. rewrite between_spec in *. lia. }
    assert ((c =? 255)%N = false) as ->.
    { apply N.eqb_neq. rewrite between_spec in *. lia. }
    now exists c.
Qed.

Lemma upper_letters (run : pystr) :
  forallb is_ascii_letter run = true ->
  length (upper run) = length run /\ forallb is_AZ (upper run) = true.
Proof.
  induction run as [|c run IH]; simpl; auto.
  intros H. apply andb_prop in H as [Hc Hr].
  destruct (upper_cp_letter c Hc) as (u & -> & Hu), (IH Hr) as [L F].
  simpl. now rewrite Hu, L, F.
Qed.

Lemma letter_not_space (c : N) :
  is_ascii_letter c = true -> is_space c = false.
Proof.
  unfold is_ascii_letter, is_AZ, is_space. intros H.
  apply not_true_is_false. intros S.
  n_bools; rewrite ?between_spec in *; lia.
Qed.

(* ===================================================================== *)
(** * Facts on numeric literals and [float] *)
(* ===================================================================== *)

Lemma iter_pos_invariant (A : Type) (P : A -> Prop) (f : A -> A) :
  (forall x, P x -> P (f x)) ->
  forall n x, P x -> P (iter_pos f n x).
Proof.
  intros Hf. induction n as [n IH|n IH|]; intros x Px; simpl; auto.
Qed.

Lemma shr_1_nonneg (mrs : shr_record) :
  (0 <= shr_m mrs)%Z -> (0 <= shr_m (shr_1 mrs))%Z.
Proof.
  destruct mrs as [m r s]. simpl.
  destruct m as [|[q|q|]|q]; simpl; lia.
Qed.

Lemma shr_nonneg (mrs : shr_record) (e n : Z) :
  (0 <= shr_m mrs)%Z -> (0 <= shr_m (fst (shr mrs e n)))%Z.
Proof.
  intros H. destruct n as [|q|q]; simpl; auto.
  apply (iter_pos_invariant (fun x => (0 <= shr_m x)%Z)); auto.
  apply shr_1_nonneg.
Qed.

Lemma shr_fexp_nonneg (m e : Z) (l : location) :
  (0 <= m)%Z -> (0 <= shr_m (fst (shr_fexp prec emax m e l)))%Z.
Proof.
  intros H. unfold shr_fexp. apply shr_nonneg.
  destruct l as [|[]]; exact H.
Qed.

Lemma round_nearest_even_nonneg (m : Z) (l : location) :
  (0 <= m)%Z -> (0 <= round_nearest_even m l)%Z.
Proof.
  intros H. destruct l as [|[]]; simpl; try lia.
  destruct (Z.even m); lia.
Qed.

(** Rounding a non-negative quotient gives [+0.0], a positive finite number
    or [+inf], never a NaN. *)
Lemma binary_round_aux_nonneg (q e : Z) (l : location) :
  (0 <= q)%Z ->
  float_nonneg (binary_round_aux prec emax false q e l) = true.
Proof.
  intros H. unfold binary_round_aux.
  pose proof (shr_fexp_nonneg e l H) as H1.
  destruct (shr_fexp prec emax q e l) as [mrs' e'] eqn:E1. simpl in H1.
  pose proof (shr_fexp_nonneg e' loc_Exact
                (round_nearest_even_nonneg (loc_of_shr_record mrs') H1)) as H2.
  destruct (shr_fexp prec emax
              (round_nearest_even (shr_m mrs') (loc_of_shr_record mrs'))
              e' loc_Exact) as [mrs'' e''] eqn:E2.
  simpl in H2. destruct (shr_m mrs'') as [|m|m]; try reflexivity; [|lia].
  destruct (e'' <=? emax - prec)%Z; reflexivity.
Qed.

Lemma float_of_decimal_nonneg (n : Z) (k : nat) :
  (0 <= n)%Z -> float_nonneg (float_of_decimal n k) = true.
Proof.
  intros H. unfold float_of_decimal.
  destruct n as [|n|n]; [reflexivity| |lia].
  unfold SFdiv_core_binary.
  set (m' := match _ with Z0 => _ | Zpos _ => _ | Zneg _ => _ end).
  assert (0 <= m')%Z as Hm.
  { subst m'.
    destruct (_ - _ - _)%Z; try lia. apply Z.shiftl_nonneg. lia. }
  assert (0 < 10 ^ Z.of_nat k)%Z as Hd by (apply Z.pow_pos_nonneg; lia).
  pose proof (Z.div_pos m' _ Hm Hd) as Hq.
  unfold Z.div in Hq.
  destruct (Z.div_eucl m' (10 ^ Z.of_nat k)) as [q r]. simpl in Hq.
  now apply binary_round_aux_nonneg.
Qed.

Lemma int_of_digits_nonneg (ds : pystr) :
  forallb is_digit ds = true -> (0 <= int_of_digits ds)%Z.
Proof.
  unfold int_of_digits.
  assert (G : forall acc, (0 <= acc)%Z -> forallb is_digit ds = true ->
             (0 <= fold_left (fun a d => 10 * a + (Z.of_N d - 48)) ds acc)%Z).
  { induction ds as [|d ds IH]; intros acc Ha F;
      cbn [fold_left forallb] in *; auto.
    apply andb_prop in F as [Hd F]. apply IH; auto.
    unfold is_digit in Hd. rewrite between_spec in Hd. lia. }
  apply G. lia.
Qed.

Lemma span_digits_all (ds : pystr) :
  forallb is_digit ds = true -> span_digits ds = (ds, []).
Proof.
  induction ds as [|d ds IH]; simpl; auto.
  intros F. apply andb_prop in F as [-> F]. now rewrite IH.
Qed.

Lemma span_digits_stop (ds rest : pystr) (c : N) :
  forallb is_digit ds = true -> is_digit c = false ->
  span_digits (ds ++ c :: rest) = (ds, c :: rest).
Proof.
  intros F Hc. induction ds as [|d ds IH]; simpl in *.
  - now rewrite Hc.
  - apply andb_prop in F as [-> F]. now rewrite IH.
Qed.

Lemma replace_digits (ds : pystr) :
  forallb is_digit ds = true -> replace 44 46 ds = ds.
Proof.
  induction ds as [|d ds IH]; simpl; auto.
  intros F. apply andb_prop in F as [Hd F]. rewrite IH by exact F.
  destruct (d =? 44)%N eqn:E; auto.
  apply N.eqb_eq in E. subst d. discriminate.
Qed.

Lemma replace_app (a b : N) (s t : pystr) :
  replace a b (s ++ t) = replace a b s ++ replace a b t.
Proof. apply map_app. Qed.

(** [float] accepts every numeric literal once its comma is a point, and
    the value is not negative. *)
Lemma py_float_literal (w : pystr) :
  numeric_literal w ->
  exists x, py_float (replace 44 46 w) = Some x /\ float_nonneg x = true.
Proof.
  intros (ip & _ & Fi & Ni & [->|(c & fp & -> & Hc & Ff & Nf)]).
  - rewrite replace_digits by exact Fi. unfold py_float.
    rewrite span_digits_all by exact Fi.
    destruct ip as [|d ip]; [congruence|].
    eexists; split; [reflexivity|].
    now apply float_of_decimal_nonneg, int_of_digits_nonneg.
  - rewrite replace_app. simpl.
    rewrite !replace_digits by assumption.
    assert ((if (c =? 44)%N then 46%N else c) = 46%N) as ->.
    { destruct Hc as [-> | ->]; reflexivity. }
    unfold py_float. rewrite span_digits_stop by (auto; reflexivity).
    destruct ip as [|d ip]; [congruence|].
    rewrite Ff. destruct fp as [|f fp]; [congruence|]. simpl Nat.eqb.
    cbv beta iota. simpl andb.
    eexists; split; [reflexivity|].
    apply float_of_decimal_nonneg, int_of_digits_nonneg.
    rewrite forallb_app. now rewrite Fi, Ff.
Qed.

(** The two spellings of a decimal separator give the same float. *)
Lemma py_float_separator (ip fp : pystr) :
  py_float (replace 44 46 (ip ++ 44%N :: fp))
  = py_float (replace 44 46 (ip ++ 46%N :: fp)).
Proof. now rewrite !replace_app. Qed.

(* ===================================================================== *)
(** * What the three patterns match *)
(* ===================================================================== *)

Lemma lower_cp_small (x : N) :
  (lower_cp x < 65)%N -> lower_cp x = x.
Proof.
  unfold lower_cp.
  destruct (between 65 90 x) eqn:E1;
    [rewrite between_spec in E1; lia|].
  destruct (between 192 222 x && negb (x =? 215)%N) eqn:E2; auto.
  apply andb_prop in E2 as [E2 _]. rewrite between_spec in E2. lia.
Qed.

Lemma lower_cp_ge (x : N) : (x <= lower_cp x)%N.
Proof.
  unfold lower_cp.
  destruct (between 65 90 x); [lia|].
  destruct (between 192 222 x && negb (x =? 215)%N); lia.
Qed.

Lemma class_AZ (x : N) : class_match false upper_AZ x = is_AZ x.
Proof. unfold class_match, upper_AZ. simpl. apply orb_false_r. Qed.

(** IGNORECASE changes nothing for the digits... *)
Lemma class_digit (x : N) : class_match true digit_09 x = is_digit x.
Proof.
  unfold class_match, digit_09, is_digit. cbn [existsb item_match].
  rewrite orb_false_r.
  change (codes 48 57) with [48; 49; 50; 51; 52; 53; 54; 55; 56; 57]%N.
  apply eq_true_iff_eq. rewrite between_spec. cbn [existsb].
  change (lower_cp 48) with 48%N. change (lower_cp 49) with 49%N.
  change (lower_cp 50) with 50%N. change (lower_cp 51) with 51%N.
  change (lower_cp 52) with 52%N. change (lower_cp 53) with 53%N.
  change (lower_cp 54) with 54%N. change (lower_cp 55) with 55%N.
  change (lower_cp 56) with 56%N. change (lower_cp 57) with 57%N.
  rewrite !orb_true_iff, !N.eqb_eq.
  split.
  - intros H. assert (lower_cp x < 65)%N as L by lia.
    rewrite (lower_cp_small _ L) in H. lia.
  - intros H.
    assert (lower_cp x = x) as ->.
    { unfold lower_cp.
      destruct (between 65 90 x) eqn:E1;
        [rewrite between_spec in E1; lia|].
      destruct (between 192 222 x && negb (x =? 215)%N) eqn:E2; auto.
      apply andb_prop in E2 as [E2 _]. rewrite between_spec in E2. lia. }
    lia.
Qed.

(** ... and for the decimal separators. *)
Lemma class_separator (x : N) :
  class_match true [ Ch 46; Ch 44 ] x = true -> x = 46%N \/ x = 44%N.
Proof.
  unfold class_match. cbn [existsb item_match]. unfold lit_match.
  change (lower_cp 46) with 46%N. change (lower_cp 44) with 44%N.
  rewrite orb_false_r, orb_true_iff, !N.eqb_eq.
  intros H. assert (lower_cp x < 65)%N as L by lia.
  rewrite (lower_cp_small _ L) in H. exact H.
Qed.

Lemma forallb_ext_eq (A : Type) (f g : A -> bool) (l : list A) :
  (forall x, f x = g x) -> forallb f l = forallb g l.
Proof.
  intros E. induction l as [|a l IH]; simpl; auto. now rewrite E, IH.
Qed.

Lemma digits_nonempty (w : pystr) : 1 <= length w -> w <> [].
Proof. destruct w; simpl; [lia|discriminate]. Qed.

(** The pattern of a number captures a numeric literal and binds no
    group. *)
Lemma number_sound (w : pystr) (g g' : groups) :
  matches true number w g g' -> numeric_literal w /\ g' = g.
Proof.
  unfold number, Opt, Plus. intros H.
  apply matches_Seq in H as (ip & tl & g1 & -> & Hip & Htl).
  apply matches_Rep in Hip as (Fi & Li & _ & ->).
  rewrite (forallb_ext_eq _ _ _ class_digit) in Fi.
  pose proof (digits_nonempty Li) as Ni.
  assert (Nw : forall t, ip ++ t <> []).
  { intros t. destruct ip; [congruence|discriminate]. }
  apply matches_Alt in Htl as [Htl|Htl].
  - apply matches_Seq in Htl as (sep & fp & g2 & -> & Hsep & Hfp).
    apply matches_OneOf in Hsep as (c & -> & Hc & ->).
    apply matches_Rep in Hfp as (Ff & Lf & _ & ->).
    rewrite (forallb_ext_eq _ _ _ class_digit) in Ff.
    split; auto. exists ip. repeat split; auto.
    right. exists c, fp. repeat split; auto.
    + now apply class_separator.
    + now apply digits_nonempty.
  - apply matches_Eps in Htl as [-> ->]. split; auto.
    exists ip. rewrite app_nil_r. repeat split; auto.
Qed.

Lemma pair_pattern_sound (w : pystr) (m : groups) :
  matches false (expr PAIR_PATTERN) w [] m ->
  exists base sep quote,
    w = base ++ sep ++ quote /\ code_3_5 base /\ separator sep /\
    code_3_5 quote /\ m = [ (2, quote); (1, base) ].
Proof.
  simpl. intros H.
  apply matches_Seq in H as (base & tl & g1 & -> & Hb & H).
  apply matches_Seq in H as (sep & quote & g2 & -> & Hs & Hq).
  apply matches_Group in Hb as (g0 & Hb & ->).
  apply matches_Rep in Hb as (Fb & Lb & Ub & ->).
  apply matches_Group in Hq as (g3 & Hq & ->).
  apply matches_Rep in Hq as (Fq & Lq & Uq & ->).
  rewrite (forallb_ext_eq _ _ _ class_AZ) in Fb.
  rewrite (forallb_ext_eq _ _ _ class_AZ) in Fq.
  specialize (Ub _ eq_refl). specialize (Uq _ eq_refl).
  assert (S : separator sep /\ g2 = [ (1, base) ]).
  { apply matches_Alt in Hs as [Hs|Hs].
    - apply matches_OneOf in Hs as (c & -> & Hc & ->).
      unfold class_match in Hc. cbn in Hc.
      rewrite orb_false_r, orb_true_iff, !N.eqb_eq in Hc.
      split; auto. unfold separator. destruct Hc as [-> | ->]; auto.
    - apply matches_Eps in Hs as [-> ->]. split; auto. now left. }
  destruct S as [S ->].
  exists base, sep, quote. unfold code_3_5. repeat split; auto.
Qed.

Lemma pair_pattern_complete (base sep quote : pystr) :
  code_3_5 base -> separator sep -> code_3_5 quote ->
  matches false (expr PAIR_PATTERN) (base ++ sep ++ quote) []
    [ (2, quote); (1, base) ].
Proof.
  intros [Lb Fb] S [Lq Fq]. simpl.
  assert (R : forall w g, 3 <= length w <= 5 -> forallb is_AZ w = true ->
             matches false (Rep upper_AZ 3 (Some 5)) w g g).
  { intros w g L F. constructor.
    - now rewrite (forallb_ext_eq _ _ _ class_AZ).
    - lia.
    - intros h [= <-]. lia. }
  apply M_Seq with (g1 := [ (1, base) ]).
  - apply M_Group. now apply R.
  - apply M_Seq with (g1 := [ (1, base) ]).
    + destruct S as [-> | [-> | ->]].
      * apply M_AltR. constructor.
      * apply M_AltL. now constructor.
      * apply M_AltL. now constructor.
    + apply M_Group. now apply R.
Qed.

Lemma price_pattern_sound (w : pystr) (m : groups) :
  matches true (expr PRICE_PATTERN) w [] m ->
  exists lit, group 1 m = Some lit /\ numeric_literal lit.
Proof.
  simpl. intros H.
  apply matches_Seq in H as (w1 & w2 & g1 & -> & _ & H).
  apply matches_Seq in H as (w3 & lit & g2 & -> & _ & H).
  apply matches_Group in H as (g3 & H & ->).
  apply number_sound in H as [L _].
  exists lit. split; [reflexivity|exact L].
Qed.

Lemma quantity_pattern_sound (w : pystr) (m : groups) :
  matches true (expr QUANTITY_PATTERN) w [] m ->
  exists lit, group 1 m = Some lit /\ numeric_literal lit.
Proof.
  unfold QUANTITY_PATTERN, expr. intros H.
  apply matches_Seq in H as (w1 & w2 & g1 & -> & _ & H).
  apply matches_Seq in H as (w3 & w4 & g2 & -> & _ & H).
  apply matches_Seq in H as (w5 & lit & g3 & -> & _ & H).
  apply matches_Group in H as (g4 & H & ->).
  apply number_sound in H as [L _].
  exists lit. split; [reflexivity|exact L].
Qed.

(** So [float] never refuses what a pattern captured. *)
Lemma float_of_group_ok (p : pattern) (s : pystr) (m : groups) :
  flag_ignorecase p = true ->
  (forall w m', matches true (expr p) w [] m' ->
                exists lit, group 1 m' = Some lit /\ numeric_literal lit) ->
  pattern_search p s = Some m ->
  exists x, float_of_group m = Ok x /\ float_nonneg x = true.
Proof.
  intros Ic Sound H. unfold pattern_search in H. rewrite Ic in H.
  apply search_leftmost in H as (pre & rest & _ & M & _).
  apply match_at_sound in M as (w & s' & _ & M).
  destruct (Sound _ _ M) as (lit & G & L).
  destruct (py_float_literal L) as (x & F & Nn).
  exists x. unfold float_of_group. now rewrite G, F.
Qed.

Lemma _extract_quantity_cases (message : pystr) :
  match pattern_search QUANTITY_PATTERN message with
  | None => _extract_quantity message = Raise MissingQuantityError
  | Some _ =>
      exists x, _extract_quantity message = Ok x /\ float_nonneg x = true
  end.
Proof.
  unfold _extract_quantity.
  destruct (pattern_search QUANTITY_PATTERN message) as [m|] eqn:E; auto.
  apply (float_of_group_ok QUANTITY_PATTERN message); auto.
  exact quantity_pattern_sound.
Qed.

Lemma _extract_price_cases (message : pystr) :
  match pattern_search PRICE_PATTERN message with
  | None => _extract_price message = Ok None
  | Some _ =>
      exists x, _extract_price message = Ok (Some x) /\ float_nonneg x = true
  end.
Proof.
  unfold _extract_price.
  destruct (pattern_search PRICE_PATTERN message) as [m|] eqn:E; auto.
  destruct (float_of_group_ok PRICE_PATTERN message eq_refl
              price_pattern_sound E) as (x & -> & Nn).
  now exists x.
Qed.

(* ===================================================================== *)
(** * [parse], step by step *)
(* ===================================================================== *)

Lemma parse_empty (m : pystr) :
  whitespace_only m = true -> parse m = Raise EmptyInstructionError.
Proof.
  intros H. apply strip_nil in H. unfold parse. now rewrite H.
Qed.

(** After the emptiness check, [parse] is the chain of extractions, each
    one ending the call when it raises. *)
Lemma parse_steps (m : pystr) :
  whitespace_only m = false ->
  parse m =
    (side <- _extract_side (lower (strip m)) ;;
     pair <- _extract_pair (strip m) ;;
     quantity <- _extract_quantity (lower (strip m)) ;;
     if is_limit (_extract_order_type (lower (strip m))) then
       price <- _extract_price (lower (strip m)) ;;
       match price with
       | None => Raise MissingPriceError
       | Some _ =>
           Ok (Build_OrderInstruction side pair quantity
                 (_extract_order_type (lower (strip m))) price)
       end
     else
       Ok (Build_OrderInstruction side pair quantity
             (_extract_order_type (lower (strip m))) None)).
Proof.
  intros H. unfold parse.
  destruct (strip m) as [|c n] eqn:E.
  - apply strip_nil in E. congruence.
  - destruct (_extract_side (lower (c :: n))); cbn [bind]; auto.
    destruct (_extract_pair (c :: n)); cbn [bind]; auto.
    destruct (_extract_quantity (lower (c :: n))); cbn [bind]; auto.
    destruct (is_limit (_extract_order_type (lower (c :: n))));
      cbn [bind]; auto.
Qed.

Lemma _extract_side_cases (low : pystr) :
  _extract_side low =
    if any_token BUY_TOKENS low then Ok (str "buy")
    else if any_token SELL_TOKENS low then Ok (str "sell")
    else Raise AmbiguousSideError.
Proof. reflexivity. Qed.

Lemma _extract_order_type_cases (low : pystr) :
  _extract_order_type low =
    if any_token LIMIT_TOKENS low then str "limit" else str "market".
Proof.
  unfold _extract_order_type.
  destruct (any_token LIMIT_TOKENS low); auto.
  destruct (any_token MARKET_TOKENS low); auto.
Qed.

Lemma is_limit_order_type (low : pystr) :
  is_limit (_extract_order_type low) = any_token LIMIT_TOKENS low.
Proof.
  rewrite _extract_order_type_cases.
  destruct (any_token LIMIT_TOKENS low); reflexivity.
Qed.

Lemma _extract_pair_cases (n : pystr) :
  match pattern_search PAIR_PATTERN (upper n) with
  | None => _extract_pair n = Raise MissingPairError
  | Some _ => exists p, _extract_pair n = Ok p
  end.
Proof.
  unfold _extract_pair.
  destruct (pattern_search PAIR_PATTERN (upper n)); eauto.
Qed.

(** Each extraction raises its own error and no other. *)
Lemma _extract_pair_raises (n : pystr) (e : OrderParserError) :
  _extract_pair n = Raise e -> e = MissingPairError.
Proof.
  unfold _extract_pair.
  destruct (pattern_search PAIR_PATTERN (upper n)); congruence.
Qed.

Lemma _extract_quantity_raises (low : pystr) (e : OrderParserError) :
  _extract_quantity low = Raise e -> e = MissingQuantityError.
Proof.
  pose proof (_extract_quantity_cases low) as C.
  destruct (pattern_search QUANTITY_PATTERN low).
  - destruct C as (x & -> & _). discriminate.
  - rewrite C. congruence.
Qed.

Lemma _extract_price_raises (low : pystr) (e : OrderParserError) :
  _extract_price low <> Raise e.
Proof.
  pose proof (_extract_price_cases low) as C.
  destruct (pattern_search PRICE_PATTERN low).
  - destruct C as (x & -> & _). discriminate.
  - rewrite C. discriminate.
Qed.

(** Once a side is found, the error is not that of the side. *)
Lemma parse_side_found (m s : pystr) :
  whitespace_only m = false ->
  _extract_side (lower (strip m)) = Ok s ->
  parse m <> Raise AmbiguousSideError.
Proof.
  intros W Es. rewrite (parse_steps _ W), Es. cbn [bind].
  destruct (_extract_pair (strip m)) as [p|e|] eqn:Ep; cbn [bind];
    [| |discriminate].
  - destruct (_extract_quantity (lower (strip m))) as [q|e|] eqn:Eq;
      cbn [bind]; [| |discriminate].
    + destruct (is_limit (_extract_order_type (lower (strip m))));
        [|discriminate].
      destruct (_extract_price (lower (strip m))) as [[x|]|e|] eqn:Epr;
        cbn [bind]; try discriminate.
      now apply _extract_price_raises in Epr.
    + apply _extract_quantity_raises in Eq as ->. discriminate.
  - apply _extract_pair_raises in Ep as ->. discriminate.
Qed.

(** What a successful [parse] went through. *)
Lemma parse_ok_inv (m : pystr) (o : OrderInstruction) :
  parse m = Ok o ->
  let n := strip m in
  let low := lower n in
  whitespace_only m = false /\
  _extract_side low = Ok (side o) /\
  _extract_pair n = Ok (pair o) /\
  _extract_quantity low = Ok (quantity o) /\
  order_type o = _extract_order_type low /\
  (if any_token LIMIT_TOKENS low
   then exists x, _extract_price low = Ok (Some x) /\ price o = Some x
   else price o = None).
Proof.
  intros H n low.
  destruct (whitespace_only m) eqn:W.
  { rewrite (parse_empty _ W) in H. discriminate. }
  rewrite (parse_steps _ W) in H. fold n low in H.
  rewrite is_limit_order_type in H.
  destruct (_extract_side low) as [s| |]; try discriminate.
  destruct (_extract_pair n) as [p| |]; try discriminate.
  destruct (_extract_quantity low) as [q| |]; try discriminate.
  cbn [bind] in H.
  destruct (any_token LIMIT_TOKENS low).
  - destruct (_extract_price low) as [[x|]| |]; try discriminate.
    cbn [bind] in H. injection H as <-. simpl. repeat split; eauto.
  - injection H as <-. simpl. repeat split; auto.
Qed.

(** The pair comes from the leftmost place of the upper-cased message where
    two codes stand, and is the two codes joined by an underscore. *)
Lemma _extract_pair_ok (n p : pystr) :
  _extract_pair n = Ok p ->
  exists pre base sep quote post,
    pair_occurrence (upper n) pre base sep quote post /\
    p = base ++ str "_" ++ quote /\
    forall pre' base' sep' quote' post',
      pair_occurrence (upper n) pre' base' sep' quote' post' ->
      length pre <= length pre'.
Proof.
  unfold _extract_pair, pattern_search. simpl flag_ignorecase.
  destruct (search false (expr PAIR_PATTERN) (upper n)) as [m|] eqn:E;
    [|discriminate].
  intros [= <-].
  apply search_leftmost in E as (pre & rest & U & M & Least).
  apply match_at_sound in M as (w & post & -> & M).
  apply pair_pattern_sound in M as (base & sep & quote & -> & B & S & Q & ->).
  exists pre, base, sep, quote, post. split; [|split; [reflexivity|]].
  - split; [|auto]. now rewrite U, <- !app_assoc.
  - intros pre' base' sep' quote' post' (U' & B' & S' & Q').
    destruct (Nat.le_gt_cases (length pre) (length pre')) as [L|L]; auto.
    exfalso.
    apply (match_at_complete post' (pair_pattern_complete B' S' Q')).
    rewrite <- !app_assoc. now apply (Least pre').
Qed.

Lemma _extract_pair_none (n : pystr) :
  _extract_pair n = Raise MissingPairError <->
  ~ exists pre base sep quote post,
      pair_occurrence (upper n) pre base sep quote post.
Proof.
  split.
  - intros H (pre & base & sep & quote & post & U & B & S & Q).
    unfold _extract_pair, pattern_search in H. simpl flag_ignorecase in H.
    destruct (search false (expr PAIR_PATTERN) (upper n)) eqn:E;
      [discriminate|].
    revert E. rewrite U.
    replace (base ++ sep ++ quote ++ post)
      with ((base ++ sep ++ quote) ++ post) by now rewrite <- !app_assoc.
    apply search_complete with (m := [ (2, quote); (1, base) ]).
    now apply pair_pattern_complete.
  - intros H. destruct (_extract_pair n) as [p|e|] eqn:E.
    + exfalso. apply H.
      destruct (_extract_pair_ok _ E)
        as (pre & base & sep & quote & post & O & _).
      now exists pre, base, sep, quote, post.
    + unfold _extract_pair in E.
      destruct (pattern_search PAIR_PATTERN (upper n)); congruence.
    + unfold _extract_pair in E.
      destruct (pattern_search PAIR_PATTERN (upper n)); congruence.
Qed.

Lemma pair_shape_of_codes (base quote : pystr) :
  code_3_5 base -> code_3_5 quote -> pair_shape (base ++ str "_" ++ quote).
Proof. intros B Q. now exists base, quote. Qed.

Lemma _extract_side_found (low : pystr) :
  any_token BUY_TOKENS low || any_token SELL_TOKENS low = true ->
  exists s, _extract_side low = Ok s /\ (s = str "buy" \/ s = str "sell").
Proof.
  rewrite _extract_side_cases. intros H.
  destruct (any_token BUY_TOKENS low); [eauto|].
  destruct (any_token SELL_TOKENS low); [eauto|discriminate].
Qed.

(** A successful [parse] returns a complete order. *)
Lemma parse_ok_complete (m : pystr) (o : OrderInstruction) :
  parse m = Ok o -> complete_order o.
Proof.
  intros H. apply parse_ok_inv in H as (_ & Hs & Hp & Hq & Ht & Hpr).
  set (n := strip m) in *. set (low := lower n) in *.
  repeat split.
  - rewrite _extract_side_cases in Hs.
    destruct (any_token BUY_TOKENS low); [injection Hs as <-; auto|].
    destruct (any_token SELL_TOKENS low); [injection Hs as <-; auto|].
    discriminate.
  - destruct (_extract_pair_ok _ Hp)
      as (pre & base & sep & quote & post & (_ & B & _ & Q) & -> & _).
    now apply pair_shape_of_codes.
  - pose proof (_extract_quantity_cases low) as C.
    destruct (pattern_search QUANTITY_PATTERN low).
    + destruct C as (x & E & Nn). congruence.
    + congruence.
  - rewrite _extract_order_type_cases in Ht.
    destruct (any_token LIMIT_TOKENS low); [right|left; auto].
    destruct Hpr as (x & Hx & Px). split; auto. exists x. split; auto.
    pose proof (_extract_price_cases low) as C.
    destruct (pattern_search PRICE_PATTERN low).
    + destruct C as (y & E & Nn). congruence.
    + congruence.
Qed.

(** Once a pair is found, the error is not that of the pair. *)
Lemma parse_pair_found (m p : pystr) :
  _extract_pair (strip m) = Ok p ->
  parse m <> Raise MissingPairError.
Proof.
  intros Ep. destruct (whitespace_only m) eqn:W.
  { now rewrite parse_empty. }
  rewrite (parse_steps _ W), Ep.
  rewrite _extract_side_cases.
  destruct (any_token BUY_TOKENS (lower (strip m)));
    [|destruct (any_token SELL_TOKENS (lower (strip m)));
      [|discriminate]];
    cbn [bind];
    (destruct (_extract_quantity (lower (strip m))) as [q|e|] eqn:Eq;
     cbn [bind];
     [|apply _extract_quantity_raises in Eq as ->; discriminate
      |discriminate]);
    (destruct (is_limit (_extract_order_type (lower (strip m))));
     [|discriminate]);
    (destruct (_extract_price (lower (strip m))) as [[x|]|e|] eqn:Epr;
     cbn [bind]; try discriminate;
     now apply _extract_price_raises in Epr).
Qed.

(** Six capitals in a row hold a pair, whatever surrounds them. *)
Lemma six_capitals_found (pre run post : pystr) :
  6 <= length run -> forallb is_AZ run = true ->
  search false (expr PAIR_PATTERN) (pre ++ run ++ post) <> None.
Proof.
  intros L F.
  destruct run as [|a [|b [|c [|d [|e [|f rest]]]]]]; simpl in L; try lia.
  cbn [forallb] in F.
  repeat match goal with
         | H : _ && _ = true |- _ => apply andb_prop in H as [? H]
         end.
  change (a :: b :: c :: d :: e :: f :: rest)
    with (([a; b; c] ++ [] ++ [d; e; f]) ++ rest).
  rewrite <- app_assoc.
  apply search_complete with (m := [ (2, [d; e; f]); (1, [a; b; c]) ]).
  apply pair_pattern_complete.
  - split; [simpl; lia|]. cbn [forallb]. now rewrite H, H0, H1.
  - now left.
  - split; [simpl; lia|]. cbn [forallb]. now rewrite H2, H3, H4.
Qed.

Lemma number_complete (lit : pystr) (g : groups) :
  numeric_literal lit -> matches true number lit g g.
Proof.
  assert (D : forall w, forallb is_digit w = true -> w <> [] ->
             matches true (Plus digit_09) w g g).
  { intros w F Nw. constructor.
    - now rewrite (forallb_ext_eq _ _ _ class_digit).
    - destruct w; simpl; [congruence|lia].
    - discriminate. }
  intros (ip & _ & Fi & Ni & [->|(c & fp & -> & Hc & Ff & Nf)]);
    unfold number.
  - rewrite <- (app_nil_r ip). apply M_Seq with (g1 := g); auto.
    apply M_AltR. constructor.
  - apply M_Seq with (g1 := g); auto.
    apply M_AltL. change (c :: fp) with ([c] ++ fp).
    apply M_Seq with (g1 := g); auto.
    constructor. destruct Hc as [-> | ->]; reflexivity.
Qed.

(** The letters [at], blanks and a number are a price wherever they
    stand: nothing is asked of what comes before. *)
Lemma price_after_any_prefix (pre lit post : pystr) :
  numeric_literal lit ->
  pattern_search PRICE_PATTERN (pre ++ str "at " ++ lit ++ post) <> None.
Proof.
  intros L. unfold pattern_search. simpl flag_ignorecase.
  replace (str "at " ++ lit ++ post) with ((str "at " ++ lit) ++ post)
    by now rewrite <- app_assoc.
  apply search_complete with (m := [ (1, lit) ]).
  simpl expr. change (str "at " ++ lit) with (str "at" ++ [32%N] ++ lit).
  apply M_Seq with (g1 := []).
  - apply M_AltL. change (lits (str "at")) with (Seq (Lit 97) (Lit 116)).
    change (str "at") with ([97%N] ++ [116%N]).
    apply M_Seq with (g1 := []); now constructor.
  - apply M_Seq with (g1 := []).
    + constructor; [reflexivity|simpl; lia|discriminate].
    + constructor. now apply number_complete.
Qed.

Lemma float_of_group_inv (m : groups) (x : spec_float) :
  float_of_group m = Ok x ->
  exists lit, group 1 m = Some lit /\ py_float (replace 44 46 lit) = Some x.
Proof.
  unfold float_of_group. destruct (group 1 m) as [lit|]; [|discriminate].
  destruct (py_float (replace 44 46 lit)) as [y|] eqn:E; [|discriminate].
  intros [= <-]. now exists lit.
Qed.

(** A successful [parse] returns what the extraction steps read. *)
Lemma parse_ok_fields (m : pystr) (o : OrderInstruction) :
  parse m = Ok o -> fields_extracted (strip m) o.
Proof.
  intros H. apply parse_ok_inv in H as (_ & Hs & Hp & Hq & Ht & Hpr).
  unfold fields_extracted. cbv zeta.
  set (n := strip m) in *. set (low := lower n) in *.
  rewrite is_limit_order_type.
  split; [|split; [|split; [|split]]].
  - rewrite _extract_side_cases in Hs.
    destruct (any_token BUY_TOKENS low); [congruence|].
    destruct (any_token SELL_TOKENS low); [congruence|discriminate].
  - unfold _extract_pair in Hp.
    destruct (pattern_search PAIR_PATTERN (upper n)) as [mp|];
      [|discriminate].
    exists mp. split; congruence.
  - unfold _extract_quantity in Hq.
    destruct (pattern_search QUANTITY_PATTERN low) as [mq|];
      [|discriminate].
    apply float_of_group_inv in Hq as (lit & G & F). now exists mq, lit.
  - exact Ht.
  - destruct (any_token LIMIT_TOKENS low); [|exact Hpr].
    destruct Hpr as (x & Ex & Px). unfold _extract_price in Ex.
    destruct (pattern_search PRICE_PATTERN low) as [mpr|]; [|discriminate].
    destruct (float_of_group mpr) as [y| |] eqn:Fg; try discriminate.
    cbn [bind] in Ex. injection Ex as ->.
    apply float_of_group_inv in Fg as (lit & G & F).
    now exists mpr, lit, x.
Qed.

(** A pair is extracted exactly when the upper-cased message has a place
    where two codes stand, and then it is the pair of the leftmost one. *)
Lemma _extract_pair_found (n : pystr) :
  (exists pre base sep quote post,
     pair_occurrence (upper n) pre base sep quote post) ->
  exists p, _extract_pair n = Ok p.
Proof.
  intros Occ. destruct (_extract_pair n) as [p|e|] eqn:E.
  - now exists p.
  - exfalso. pose proof (_extract_pair_raises _ E) as ->.
    now apply _extract_pair_none in E.
  - unfold _extract_pair in E.
    destruct (pattern_search PAIR_PATTERN (upper n)); discriminate.
Qed.

(* ===================================================================== *)
(** * The scenarios of the specification, run on the model *)
(* ===================================================================== *)

(** Scenario A: a market order, half a unit. *)
Example scenario_A :
  exists q,
    parse (str "buy 0.5 BTC/USDT")
    = Ok {| side := str "buy"; pair := str "BTC_USDT"; quantity := q;
            order_type := str "market"; price := None |} /\
    float_to_Q q = Some (1 # 2)%Q.
Proof. eexists. split; vm_compute; reflexivity. Qed.

Example scenario_C : parse (str "") = Raise EmptyInstructionError.
Proof. reflexivity. Qed.

Example scenario_C_blank :
  parse [32; 9; 160; 10]%N = Raise EmptyInstructionError.
Proof. reflexivity. Qed.

Example scenario_no_side :
  parse (str "2 BTC/USDT") = Raise AmbiguousSideError.
Proof. vm_compute. reflexivity. Qed.

Example scenario_no_pair :
  parse (str "buy 2 of it") = Raise MissingPairError.
Proof. vm_compute. reflexivity. Qed.

Example scenario_D : parse (str "buy BTCUSDT") = Raise MissingQuantityError.
Proof. vm_compute. reflexivity. Qed.

Example scenario_E :
  parse (str "sell 2 BTC/USDT limit") = Raise MissingPriceError.
Proof. vm_compute. reflexivity. Qed.

(** The accented tokens: [achète] gives the side and the quantity, [à] the
    price. *)
Example scenario_french :
  exists q p,
    parse (str "Ach" ++ [200%N] ++ str "TE 3 btc-usdt " ++ [192%N]
           ++ str " 25,5 limite")
    = Ok {| side := str "buy"; pair := str "BTC_USDT"; quantity := q;
            order_type := str "limit"; price := Some p |} /\
    float_to_Q q = Some (3 # 1)%Q /\ float_to_Q p = Some (51 # 2)%Q.
Proof. do 2 eexists. split; [|split]; vm_compute; reflexivity. Qed.

(** The first failing step decides: a message with neither side nor pair
    nor quantity raises the error of the side. *)
Example scenario_first_error :
  parse (str "hello") = Raise AmbiguousSideError /\
  parse (str "buy") = Raise MissingPairError /\
  parse (str "buy now limit") = Raise MissingPairError.
Proof. repeat split; vm_compute; reflexivity. Qed.

(** Some values of [float], as binary64. *)
Example float_one_tenth :
  py_float (str "0.1") = Some (S754_finite false 7205759403792794 (-56)).
Proof. vm_compute. reflexivity. Qed.

Example float_ties_to_even :
  py_float (str "9007199254740993")
  = Some (S754_finite false 4503599627370496 1).
Proof. vm_compute. reflexivity. Qed.

(* ===================================================================== *)
(** * The claims of the specification *)
(* ===================================================================== *)

(** C1, as the specification states it, fails: the order returned for a
    quantity of zero has every field, but is not valid in the sense of the
    data model, which asks [quantity > 0]. *)
Lemma C1_counterexample :
  exists o,
    parse (str "buy 0 BTCUSDT") = Ok o /\
    complete_order o /\ ~ data_model_invariants o.
Proof.
  eexists. split; [vm_compute; reflexivity|]. split.
  - split; [left; reflexivity|]. split; [|split; [reflexivity|]].
    + exists (str "BTCU"), (str "SDT").
      repeat split; try reflexivity; simpl; lia.
    + left. split; reflexivity.
  - intros (Q & _). vm_compute in Q. discriminate.
Qed.

(** C1, amended. For every message, [parse] either returns a complete
    order (every field extracted; the quantity, and the price of a limit
    order, a number not below zero, which may be zero) or raises exactly
    one [OrderParserError], decided in this order: an empty or
    whitespace-only message raises EmptyInstructionError; otherwise a
    message without buy or sell token raises AmbiguousSideError; otherwise
    a message in which the pair pattern finds nothing raises
    MissingPairError; otherwise one in which the quantity pattern finds
    nothing raises MissingQuantityError; otherwise, when the order type is
    limit and the price pattern finds nothing, MissingPriceError;
    otherwise the order is returned, each field being what its extraction
    step read.  No other exception escapes and no partial order is
    returned. *)
Theorem C1_parse_fail_fast (message : string) :
  let m := str message in
  let normalized := strip m in
  let low := lower normalized in
  let side_found := any_token BUY_TOKENS low || any_token SELL_TOKENS low in
  let pair_found := pattern_search PAIR_PATTERN (upper normalized) in
  let quantity_found := pattern_search QUANTITY_PATTERN low in
  let price_found := pattern_search PRICE_PATTERN low in
  let limit := is_limit (_extract_order_type low) in
  (whitespace_only m = true -> parse m = Raise EmptyInstructionError) /\
  (whitespace_only m = false ->
   (side_found = false -> parse m = Raise AmbiguousSideError) /\
   (side_found = true ->
    (pair_found = None -> parse m = Raise MissingPairError) /\
    (pair_found <> None ->
     (quantity_found = None -> parse m = Raise MissingQuantityError) /\
     (quantity_found <> None ->
      (limit = true -> price_found = None ->
       parse m = Raise MissingPriceError) /\
      ((limit = true -> price_found <> None) ->
       exists o,
         parse m = Ok o /\ complete_order o /\
         fields_extracted normalized o))))) /\
  parse m <> OtherError.
Proof.
  intros m normalized low side_found pair_found quantity_found price_found
    limit.
  assert (Steps := parse_steps m).
  fold normalized low in Steps. fold limit in Steps.
  pose proof (@_extract_side_found low) as Side. fold side_found in Side.
  pose proof (_extract_side_cases low) as SideC.
  pose proof (_extract_pair_cases normalized) as Pair. fold pair_found in Pair.
  pose proof (_extract_quantity_cases low) as Qty.
  fold quantity_found in Qty.
  pose proof (_extract_price_cases low) as Price. fold price_found in Price.
  split; [apply parse_empty|]. split.
  - intros W. specialize (Steps W). split.
    + intros S. rewrite Steps, SideC.
      apply orb_false_iff in S as [-> ->]. reflexivity.
    + intros S. destruct (Side S) as (s & Es & _). rewrite Es in Steps.
      cbn [bind] in Steps. split.
      * intros P. rewrite P in Pair. now rewrite Steps, Pair.
      * intros P. destruct pair_found as [mp|]; [|congruence].
        destruct Pair as (p & Ep). rewrite Ep in Steps.
        cbn [bind] in Steps. split.
        -- intros Q. rewrite Q in Qty. now rewrite Steps, Qty.
        -- intros Q. destruct quantity_found as [mq|]; [|congruence].
           destruct Qty as (q & Eq & _). rewrite Eq in Steps.
           cbn [bind] in Steps. split.
           ++ intros L Pr. rewrite Pr in Price.
              now rewrite Steps, L, Price.
           ++ intros L.
              assert (exists o, parse m = Ok o) as (o & Eo).
              { rewrite Steps. destruct limit; [|eauto].
                destruct price_found as [mpr|]; [|now destruct L].
                destruct Price as (x & -> & _). cbn [bind]. eauto. }
              exists o. split; auto. split.
              ** now apply parse_ok_complete with m.
              ** now apply parse_ok_fields.
  - destruct (whitespace_only m) eqn:W.
    + now rewrite parse_empty.
    + rewrite (Steps eq_refl).
      destruct (_extract_side low) eqn:Es; cbn [bind]; try discriminate.
      { destruct (_extract_pair normalized) eqn:Ep; cbn [bind];
          try discriminate.
        - destruct quantity_found.
          + destruct Qty as (q & -> & _). cbn [bind].
            destruct limit; [|discriminate].
            destruct price_found.
            * destruct Price as (x & -> & _). discriminate.
            * rewrite Price. discriminate.
          + rewrite Qty. discriminate.
        - unfold _extract_pair in Ep. fold pair_found in Ep.
          destruct pair_found; discriminate. }
      rewrite SideC in Es.
      destruct (any_token BUY_TOKENS low); [discriminate|].
      destruct (any_token SELL_TOKENS low); discriminate.
Qed.

(** C2. For every message that is not empty (nor whitespace only): if a buy
    token is a substring of the lower-cased message the side is buy, also
    when a sell token occurs as well; otherwise, if a sell token is a
    substring the side is sell; otherwise [parse] raises
    AmbiguousSideError. *)
Theorem C2_buy_before_sell (message : string) :
  let m := str message in
  let low := lower (strip m) in
  whitespace_only m = false ->
  (any_token BUY_TOKENS low = true ->
   _extract_side low = Ok (str "buy") /\
   parse m <> Raise AmbiguousSideError /\
   forall o, parse m = Ok o -> side o = str "buy") /\
  (any_token BUY_TOKENS low = false -> any_token SELL_TOKENS low = true ->
   _extract_side low = Ok (str "sell") /\
   parse m <> Raise AmbiguousSideError /\
   forall o, parse m = Ok o -> side o = str "sell") /\
  (any_token BUY_TOKENS low = false -> any_token SELL_TOKENS low = false ->
   parse m = Raise AmbiguousSideError).
Proof.
  intros m low W.
  assert (Found : forall s, _extract_side low = Ok s ->
            parse m <> Raise AmbiguousSideError /\
            forall o, parse m = Ok o -> side o = s).
  { intros s Es. split.
    - now apply parse_side_found with s.
    - intros o Ho. apply parse_ok_inv in Ho as (_ & Hs & _).
      fold low in Hs. congruence. }
  split; [|split].
  - intros B.
    assert (Es : _extract_side low = Ok (str "buy"))
      by (rewrite _extract_side_cases, B; reflexivity).
    split; [exact Es|exact (Found _ Es)].
  - intros B S.
    assert (Es : _extract_side low = Ok (str "sell"))
      by (rewrite _extract_side_cases, B, S; reflexivity).
    split; [exact Es|exact (Found _ Es)].
  - intros B S. rewrite (parse_steps _ W). fold low.
    rewrite _extract_side_cases, B, S. reflexivity.
Qed.

(** A message with a sell token before a buy token: the side is buy. *)
Lemma C2_buy_before_sell_witness :
  let m := str "vends 2 BTCUSDT achat" in
  whitespace_only m = false /\
  any_token BUY_TOKENS (lower (strip m)) = true /\
  any_token SELL_TOKENS (lower (strip m)) = true /\
  _extract_side (lower (strip m)) = Ok (str "buy") /\
  exists o, parse m = Ok o /\ side o = str "buy".
Proof.
  intros m.
  assert (W : whitespace_only m = false) by reflexivity.
  assert (B : any_token BUY_TOKENS (lower (strip m)) = true) by reflexivity.
  destruct (C2_buy_before_sell "vends 2 BTCUSDT achat" W) as [Buy _].
  destruct (Buy B) as (Es & _ & Side).
  repeat split; auto.
  eexists. split; [vm_compute; reflexivity|]. reflexivity.
Defined.

(** C3, as the specification states it, fails: a quantity of zero is
    accepted, so the returned order does not have [quantity > 0]. *)
Lemma C3_counterexample :
  exists o,
    parse (str "buy 0 BTCUSDT") = Ok o /\
    quantity o = S754_zero false /\
    ~ data_model_invariants o.
Proof.
  eexists. split; [vm_compute; reflexivity|]. split; [reflexivity|].
  intros (Q & _). vm_compute in Q. discriminate.
Qed.

(** C3, amended. Every order returned by [parse] has a quantity that is a
    number not below zero; if its order type is limit its price is present
    and not below zero; if its order type is market its price is absent,
    whatever the message says about a price. *)
Theorem C3_order_invariants (message : string) (o : OrderInstruction) :
  parse (str message) = Ok o ->
  float_nonneg (quantity o) = true /\
  (order_type o = str "limit" ->
   exists p, price o = Some p /\ float_nonneg p = true) /\
  (order_type o = str "market" -> price o = None).
Proof.
  intros H. apply parse_ok_complete in H as (_ & _ & Q & T).
  split; [exact Q|].
  destruct T as [[T P]|[T P]]; rewrite T; split; auto;
    intros E; vm_compute in E; discriminate.
Qed.

(** A market order whose text has a price phrase: the price is absent. *)
Lemma C3_order_invariants_witness :
  exists o,
    parse (str "buy 2 BTC/USDT at 100") = Ok o /\
    pattern_search PRICE_PATTERN (str "buy 2 btc/usdt at 100") <> None /\
    order_type o = str "market" /\ price o = None /\
    float_nonneg (quantity o) = true.
Proof.
  eexists. split; [vm_compute; reflexivity|].
  split; [vm_compute; discriminate|].
  split; [reflexivity|].
  match goal with
  | |- price ?o = None /\ _ =>
      destruct (@C3_order_invariants "buy 2 BTC/USDT at 100" o)
        as (Q & _ & Mk); [vm_compute; reflexivity|]
  end.
  split; [apply Mk; reflexivity|exact Q].
Defined.

(** C4. For every successfully parsed message the pair has the shape
    [[A-Z]{3,5}_[A-Z]{3,5}]: it is the two codes, joined by an underscore,
    of the leftmost place of the upper-cased message where a run of 3 to 5
    capitals, an optional [/] or [-], and another run of 3 to 5 capitals
    stand.  Whenever the upper-cased message has such a place, the pair
    extraction returns the pair of the leftmost one and [parse] does not
    raise MissingPairError; when it has none, the pair extraction raises
    MissingPairError (and so does [parse], once the message is not empty
    and has a side). *)
Theorem C4_pair_shape_leftmost (message : string) :
  let m := str message in
  let u := upper (strip m) in
  let low := lower (strip m) in
  (forall o, parse m = Ok o ->
     _extract_pair (strip m) = Ok (pair o) /\
     pair_shape (pair o) /\
     exists pre base sep quote post,
       pair_occurrence u pre base sep quote post /\
       pair o = base ++ str "_" ++ quote /\
       forall pre' base' sep' quote' post',
         pair_occurrence u pre' base' sep' quote' post' ->
         length pre <= length pre') /\
  ((exists pre base sep quote post,
      pair_occurrence u pre base sep quote post) ->
   parse m <> Raise MissingPairError /\
   exists p pre base sep quote post,
     _extract_pair (strip m) = Ok p /\
     pair_shape p /\
     pair_occurrence u pre base sep quote post /\
     p = base ++ str "_" ++ quote /\
     forall pre' base' sep' quote' post',
       pair_occurrence u pre' base' sep' quote' post' ->
       length pre <= length pre') /\
  ((~ exists pre base sep quote post,
        pair_occurrence u pre base sep quote post) ->
   _extract_pair (strip m) = Raise MissingPairError /\
   (whitespace_only m = false ->
    any_token BUY_TOKENS low || any_token SELL_TOKENS low = true ->
    parse m = Raise MissingPairError)).
Proof.
  intros m u low. split; [|split].
  - intros o H. split; [|split].
    + now apply parse_ok_inv in H as (_ & _ & P & _).
    + now apply parse_ok_complete in H as (_ & P & _).
    + apply parse_ok_inv in H as (_ & _ & P & _).
      exact (_extract_pair_ok _ P).
  - intros Occ. destruct (_extract_pair_found _ Occ) as (p & E).
    split; [now apply parse_pair_found with p|].
    destruct (_extract_pair_ok _ E)
      as (pre & base & sep & quote & post & O & -> & Least).
    exists (base ++ str "_" ++ quote), pre, base, sep, quote, post.
    split; [exact E|]. split; [|split; [exact O|split; [reflexivity|]]].
    + destruct O as (_ & B & _ & Q). now apply pair_shape_of_codes.
    + exact Least.
  - intros No. apply _extract_pair_none in No. split; auto.
    intros W S. rewrite (parse_steps _ W).
    destruct (_extract_side_found _ S) as (s & Es & _).
    unfold low in Es. rewrite Es. cbn [bind]. now rewrite No.
Qed.

(** In "buy 0.5 BTC/USDT" the codes BTC and USDT stand after "BUY 0.5 ":
    the pair is BTC_USDT. *)
Lemma C4_pair_shape_leftmost_witness :
  _extract_pair (strip (str "buy 0.5 BTC/USDT")) = Ok (str "BTC_USDT") /\
  pair_shape (str "BTC_USDT") /\
  parse (str "buy 0.5 BTC/USDT") <> Raise MissingPairError /\
  exists o, parse (str "buy 0.5 BTC/USDT") = Ok o /\
            pair o = str "BTC_USDT".
Proof.
  destruct (C4_pair_shape_leftmost "buy 0.5 BTC/USDT") as (A & B & _).
  destruct B as (NoErr & p & pre & base & sep & quote & post & E & Sh & _).
  { exists (str "BUY 0.5 "), (str "BTC"), (str "/"), (str "USDT"), [].
    split; [reflexivity|]. split; [|split].
    - split; [simpl; lia|reflexivity].
    - right. left. reflexivity.
    - split; [simpl; lia|reflexivity]. }
  assert (P : p = str "BTC_USDT").
  { vm_compute in E. injection E as <-. reflexivity. }
  subst p. split; [exact E|]. split; [exact Sh|]. split; [exact NoErr|].
  eexists. split; [vm_compute; reflexivity|]. reflexivity.
Defined.


(** C6, as the specification states it, fails: the base code takes as many
    letters as it can, so ETHUSDT is cut after ETHU. *)
Lemma C6_counterexample :
  exists o,
    parse (str "vends 10 ETHUSDT at 1800 limit") = Ok o /\
    pair o = str "ETHU_SDT" /\ pair o <> str "ETH_USDT".
Proof.
  eexists. split; [vm_compute; reflexivity|].
  split; [reflexivity|]. vm_compute. discriminate.
Qed.

(** C6, amended. [parse("vends 10 ETHUSDT at 1800 limit")] returns the
    order with side sell, pair ETHU_SDT, quantity 10, order type limit and
    price 1800. *)
Theorem C6_scenario_B :
  exists q p,
    parse (str "vends 10 ETHUSDT at 1800 limit")
    = Ok {| side := str "sell"; pair := str "ETHU_SDT"; quantity := q;
            order_type := str "limit"; price := Some p |} /\
    float_to_Q q = Some (10 # 1)%Q /\ float_to_Q p = Some (1800 # 1)%Q.
Proof.
  do 2 eexists. split; [vm_compute; reflexivity|].
  split; vm_compute; reflexivity.
Qed.

(** C7. For every order whose order type is market or limit and every
    account identifier, the payload has exactly the keys [account_id],
    [pair] and [position]; [position] has [type], the order type as a
    string, and [units.value], the quantity; and it has a [price] block,
    carrying the price, if and only if the order type is limit: the payload
    of a market order has none. *)
Theorem C7_payload_shape (o : OrderInstruction) (account_id : Z) :
  order_type o = str "market" \/ order_type o = str "limit" ->
  let payload := as_payload o account_id in
  dict_keys payload = [ str "account_id"; str "pair"; str "position" ] /\
  dict_get (str "account_id") payload = Some (VInt account_id) /\
  dict_get (str "pair") payload = Some (VStr (pair o)) /\
  dict_path [ str "position"; str "type" ] (VDict payload)
  = Some (VStr (order_type o)) /\
  dict_path [ str "position"; str "units" ] (VDict payload)
  = Some (VDict [ (str "value", VFloat (quantity o)) ]) /\
  (order_type o = str "limit" ->
   position_keys payload = Some [ str "type"; str "units"; str "price" ] /\
   dict_path [ str "position"; str "price" ] (VDict payload)
   = Some (VDict [ (str "value", opt_float (price o)) ])) /\
  (order_type o = str "market" ->
   position_keys payload = Some [ str "type"; str "units" ] /\
   dict_path [ str "position"; str "price" ] (VDict payload) = None) /\
  (dict_path [ str "position"; str "price" ] (VDict payload) <> None <->
   order_type o = str "limit").
Proof.
  destruct o as [s p q t pr]. cbn [order_type pair quantity price].
  intros [-> | ->]; cbv zeta;
    (split; [reflexivity|]); (split; [reflexivity|]);
    (split; [reflexivity|]); (split; [reflexivity|]);
    (split; [reflexivity|]).
  - split; [|split].
    + intros E. vm_compute in E. discriminate.
    + intros _. split; reflexivity.
    + split; intros E.
      * exfalso. apply E. reflexivity.
      * vm_compute in E. discriminate.
  - split; [|split].
    + intros _. split; reflexivity.
    + intros E. vm_compute in E. discriminate.
    + split; intros _.
      * reflexivity.
      * vm_compute. discriminate.
Qed.

(** The payloads of the market order of scenario A and of a limit order. *)
Lemma C7_payload_shape_witness :
  let market := {| side := str "buy"; pair := str "BTC_USDT";
                   quantity := float_of_decimal 5 1;
                   order_type := str "market"; price := None |} in
  let limit := {| side := str "sell"; pair := str "BTC_USDT";
                  quantity := float_of_decimal 2 0;
                  order_type := str "limit";
                  price := Some (float_of_decimal 100 0) |} in
  (position_keys (as_payload market 42) = Some [ str "type"; str "units" ] /\
   dict_path [ str "position"; str "price" ] (VDict (as_payload market 42))
   = None) /\
  (position_keys (as_payload limit 42)
   = Some [ str "type"; str "units"; str "price" ] /\
   dict_path [ str "position"; str "price"; str "value" ]
     (VDict (as_payload limit 42))
   = Some (VFloat (float_of_decimal 100 0))).
Proof.
  intros market limit. split.
  - destruct (@C7_payload_shape market 42 (or_introl eq_refl))
      as (_ & _ & _ & _ & _ & _ & Mk & _).
    exact (Mk eq_refl).
  - destruct (@C7_payload_shape limit 42 (or_intror eq_refl))
      as (_ & _ & _ & _ & _ & Lm & _).
    split; [exact (proj1 (Lm eq_refl))|reflexivity].
Defined.

(** C8. [parse("buy 1,5 BTC-USDT")] and [parse("buy 1.5 BTC-USDT")] both
    succeed, with the same quantity 1.5 (and the same order): the comma of
    the captured literal is turned into a point before [float] reads it. *)
Theorem C8_locale_tolerance :
  exists o,
    parse (str "buy 1,5 BTC-USDT") = Ok o /\
    parse (str "buy 1.5 BTC-USDT") = Ok o /\
    float_to_Q (quantity o) = Some (3 # 2)%Q /\
    replace 44 46 (str "1,5") = str "1.5" /\
    Some (quantity o) = py_float (str "1.5").
Proof.
  eexists. split; [vm_compute; reflexivity|].
  repeat split; vm_compute; reflexivity.
Qed.

(** C9. A message with six or more ASCII letters in a row always has a
    pair: the pair pattern finds one in its upper-cased copy and [parse]
    does not raise MissingPairError; the pair may be cut out of an ordinary
    word, as in [parse("buy 5 market")], whose pair is MAR_KET. *)
Theorem C9_pair_from_any_word :
  (forall (message : string) (pre run post : pystr),
     str message = pre ++ run ++ post ->
     6 <= length run -> forallb is_ascii_letter run = true ->
     pattern_search PAIR_PATTERN (upper (strip (str message))) <> None /\
     (exists p, _extract_pair (strip (str message)) = Ok p) /\
     parse (str message) <> Raise MissingPairError) /\
  (exists o,
     parse (str "buy 5 market") = Ok o /\ pair o = str "MAR_KET" /\
     order_type o = str "market").
Proof.
  split.
  - intros message pre run post E L F.
    assert (Found : pattern_search PAIR_PATTERN (upper (strip (str message)))
                    <> None).
    { destruct (@strip_keeps pre run post) as (pre' & post' & S).
      - destruct run; simpl in L; [lia|discriminate].
      - rewrite forallb_forall in *. intros c Hc.
        apply negb_true_iff, letter_not_space. auto.
      - rewrite E, S, !upper_app.
        destruct (upper_letters _ F) as [Lu Fu].
        apply six_capitals_found; auto. lia. }
    assert (Pair : exists p, _extract_pair (strip (str message)) = Ok p).
    { pose proof (_extract_pair_cases (strip (str message))) as C.
      destruct (pattern_search PAIR_PATTERN (upper (strip (str message))));
        [exact C|congruence]. }
    split; [exact Found|]. split; [exact Pair|].
    destruct Pair as (p & Ep). now apply parse_pair_found with p.
  - eexists. split; [vm_compute; reflexivity|]. split; reflexivity.
Qed.

(** The word [market] of "buy 5 market" is such a run. *)
Lemma C9_pair_from_any_word_witness :
  pattern_search PAIR_PATTERN (upper (strip (str "buy 5 market"))) <> None /\
  parse (str "buy 5 market") <> Raise MissingPairError.
Proof.
  destruct (proj1 C9_pair_from_any_word "buy 5 market"%string
              (str "buy 5 ") (str "market") [])
    as (Found & _ & NoErr).
  - reflexivity.
  - simpl. lia.
  - reflexivity.
  - split; assumption.
Defined.

(** C10. The price pattern asks nothing of what stands before [at]: the
    letters [at], blanks and a number are a price also at the end of a
    longer word.  [parse("buy 1 BTC/USDT limit float 42")], which has no
    word [at] and no word [à], returns a limit order with price 42 instead
    of raising MissingPriceError. *)
Theorem C10_price_inside_word :
  (forall pre lit post : pystr,
     numeric_literal lit ->
     pattern_search PRICE_PATTERN (pre ++ str "at " ++ lit ++ post) <> None) /\
  (let message := str "buy 1 BTC/USDT limit float 42" in
   ~ In (str "at") (words (lower message)) /\
   ~ In [a_grave] (words (lower message)) /\
   exists o p,
     parse message = Ok o /\ order_type o = str "limit" /\
     price o = Some p /\ float_to_Q p = Some (42 # 1)%Q).
Proof.
  split; [exact price_after_any_prefix|].
  cbv zeta. split; [|split].
  - vm_compute. intuition discriminate.
  - vm_compute. intuition discriminate.
  - do 2 eexists. split; [vm_compute; reflexivity|].
    repeat split; vm_compute; reflexivity.
Qed.

(** The [at] of [float], followed by a blank and 42. *)
Lemma C10_price_inside_word_witness :
  pattern_search PRICE_PATTERN (str "buy 1 btc/usdt limit float 42") <> None.
Proof.
  apply (proj1 C10_price_inside_word (str "buy 1 btc/usdt limit flo")
           (str "42") []).
  exists (str "42"). repeat split; try discriminate; auto.
Defined.

(* ===================================================================== *)
(** * Further properties of the parser *)
(* ===================================================================== *)

Lemma dropwhile_app_all (p : N -> bool) (a b : pystr) :
  forallb p a = true -> dropwhile p (a ++ b) = dropwhile p b.
Proof.
  induction a as [|c a IH]; simpl; auto.
  intros H. apply andb_prop in H as [-> H]. auto.
Qed.

Lemma dropwhile_app_some (p : N -> bool) (a b : pystr) :
  forallb p a = false -> dropwhile p (a ++ b) = dropwhile p a ++ b.
Proof.
  induction a as [|c a IH]; simpl; [discriminate|].
  destruct (p c); simpl; auto.
Qed.

Lemma rstrip_app_space (a ws : pystr) :
  whitespace_only ws = true -> rstrip (a ++ ws) = rstrip a.
Proof.
  intros H. unfold rstrip. rewrite rev_app_distr, dropwhile_app_all; auto.
  unfold whitespace_only in H. rewrite forallb_forall in *.
  intros c Hc. apply H. now apply in_rev.
Qed.

Lemma rstrip_nil_of_space (ws : pystr) :
  whitespace_only ws = true -> rstrip ws = [].
Proof.
  intros H. rewrite <- (app_nil_l ws), rstrip_app_space; auto.
Qed.

(** Blanks around a string do not change what [strip] keeps. *)
Lemma strip_surrounded (ws1 m ws2 : pystr) :
  whitespace_only ws1 = true -> whitespace_only ws2 = true ->
  strip (ws1 ++ m ++ ws2) = strip m.
Proof.
  intros H1 H2. unfold strip, lstrip.
  rewrite dropwhile_app_all by exact H1.
  destruct (forallb is_space m) eqn:E.
  - rewrite dropwhile_app_all by exact E.
    rewrite (proj2 (dropwhile_nil is_space m) E).
    rewrite rstrip_nil_of_space.
    + reflexivity.
    + unfold whitespace_only in *. rewrite forallb_forall in *.
      intros c Hc. apply H2.
      clear - Hc. induction ws2 as [|d ws IH]; simpl in *; [tauto|].
      destruct (is_space d); [right; auto|exact Hc].
  - rewrite dropwhile_app_some by exact E. now apply rstrip_app_space.
Qed.

Lemma parse_of_strip (a b : pystr) : strip a = strip b -> parse a = parse b.
Proof. intros H. unfold parse. now rewrite H. Qed.

(** X1. Whitespace before and after a message changes nothing: the
    message parses to the same order or raises the same error. *)
Theorem X1_parse_ignores_surrounding_blanks
  (message : string) (ws1 ws2 : pystr) :
  whitespace_only ws1 = true -> whitespace_only ws2 = true ->
  parse (ws1 ++ str message ++ ws2) = parse (str message).
Proof.
  intros H1 H2. apply parse_of_strip. now apply strip_surrounded.
Qed.

Lemma X1_parse_ignores_surrounding_blanks_witness :
  parse ([9; 32]%N ++ str "buy 0.5 BTC/USDT" ++ [160; 10]%N)
  = parse (str "buy 0.5 BTC/USDT") /\
  exists o, parse (str "buy 0.5 BTC/USDT") = Ok o.
Proof.
  split.
  - apply (@X1_parse_ignores_surrounding_blanks "buy 0.5 BTC/USDT");
      reflexivity.
  - eexists. vm_compute. reflexivity.
Defined.

Lemma lower_cp_cases (c : N) :
  (lower_cp c = c /\ between 65 90 c = false /\
   between 192 222 c && negb (c =? 215)%N = false) \/
  (lower_cp c = (c + 32)%N /\
   ((65 <= c <= 90)%N \/ ((192 <= c <= 222)%N /\ c <> 215%N))).
Proof.
  unfold lower_cp.
  destruct (between 65 90 c) eqn:E1.
  - right. split; auto. left. now apply between_spec.
  - destruct (between 192 222 c && negb (c =? 215)%N) eqn:E2; auto.
    right. split; auto. right.
    apply andb_prop in E2 as [E2 E3]. apply between_spec in E2.
    apply negb_true_iff, N.eqb_neq in E3. auto.
Qed.

Ltac range_false :=
  apply not_true_is_false; intros ?; n_bools;
  rewrite ?between_spec in *; lia.

Lemma lower_cp_idem (c : N) : lower_cp (lower_cp c) = lower_cp c.
Proof.
  destruct (lower_cp_cases c) as [(E & _)|(E & R)]; rewrite E; auto.
  unfold lower_cp.
  assert (between 65 90 (c + 32) = false) as -> by range_false.
  assert (between 192 222 (c + 32) && negb (c + 32 =? 215)%N = false)
    as -> by range_false.
  reflexivity.
Qed.

Lemma is_space_lower_cp (c : N) : is_space (lower_cp c) = is_space c.
Proof.
  destruct (lower_cp_cases c) as [(E & _)|(E & R)]; rewrite E; auto.
  assert (is_space c = false) as ->
    by (unfold is_space; range_false).
  unfold is_space; range_false.
Qed.

Lemma upper_cp_lower_cp (c : N) : upper_cp (lower_cp c) = upper_cp c.
Proof.
  destruct (lower_cp_cases c) as [(E & _)|(E & R)]; rewrite E; auto.
  unfold upper_cp, simple_upper_cp.
  assert ((c + 32 =? 223)%N = false) as ->
    by (apply N.eqb_neq; lia).
  assert ((c =? 223)%N = false) as -> by (apply N.eqb_neq; lia).
  assert (between 97 122 c = false) as -> by range_false.
  assert (between 224 254 c && negb (c =? 247)%N = false) as ->
    by range_false.
  assert ((c =? 181)%N = false) as -> by (apply N.eqb_neq; lia).
  assert ((c =? 255)%N = false) as -> by (apply N.eqb_neq; lia).
  destruct R as [R|[R R']].
  - assert (between 97 122 (c + 32) = true) as ->
      by (apply between_spec; lia).
    f_equal. lia.
  - assert (between 97 122 (c + 32) = false) as -> by range_false.
    assert (between 224 254 (c + 32) && negb (c + 32 =? 247)%N = true) as ->.
    { apply andb_true_intro. split; [apply between_spec; lia|].
      apply negb_true_iff, N.eqb_neq. lia. }
    f_equal. lia.
Qed.

Lemma lower_idem (s : pystr) : lower (lower s) = lower s.
Proof.
  unfold lower. rewrite map_map. apply map_ext. exact lower_cp_idem.
Qed.

Lemma upper_lower (s : pystr) : upper (lower s) = upper s.
Proof.
  unfold upper, lower. induction s as [|c s IH]; simpl; auto.
  now rewrite upper_cp_lower_cp, IH.
Qed.

Lemma dropwhile_lower (s : pystr) :
  dropwhile is_space (lower s) = lower (dropwhile is_space s).
Proof.
  induction s as [|c s IH]; simpl; auto.
  rewrite is_space_lower_cp. destruct (is_space c); auto.
Qed.

Lemma lower_rev (s : pystr) : lower (rev s) = rev (lower s).
Proof. unfold lower. apply map_rev. Qed.

Lemma strip_lower (s : pystr) : strip (lower s) = lower (strip s).
Proof.
  unfold strip, rstrip, lstrip.
  now rewrite dropwhile_lower, <- lower_rev, dropwhile_lower, lower_rev.
Qed.

Lemma whitespace_only_lower (s : pystr) :
  whitespace_only (lower s) = whitespace_only s.
Proof.
  unfold whitespace_only, lower. induction s as [|c s IH]; simpl; auto.
  now rewrite is_space_lower_cp, IH.
Qed.

(** X2. The parser does not look at the case of letters: a message and its
    lower-cased copy parse to the same order or raise the same error. *)
Theorem X2_parse_ignores_case (message : string) :
  parse (lower (str message)) = parse (str message).
Proof.
  set (m := str message).
  destruct (whitespace_only m) eqn:W.
  - rewrite !parse_empty; auto. now rewrite whitespace_only_lower.
  - rewrite !parse_steps by (rewrite ?whitespace_only_lower; exact W).
    rewrite strip_lower, lower_idem.
    unfold _extract_pair at 1. rewrite upper_lower.
    fold (_extract_pair (strip m)). reflexivity.
Qed.

(** ** The number a pattern captures *)

Lemma greedy_total (A : Type) (p : N -> bool) (s : pystr)
  (k : pystr -> option A) :
  (forall s', k s' <> None) -> greedy p 0 None s k <> None.
Proof.
  intros K. rewrite <- (app_nil_l s). apply greedy_complete; auto.
  discriminate.
Qed.

(** With nothing after it that can fail, a greedy repetition takes every
    character it can. *)
Lemma greedy_longest (A : Type) (p : N -> bool) (s : pystr) :
  forall lo (k : pystr -> option A) a,
    (forall s', k s' <> None) ->
    greedy p lo None s k = Some a ->
    exists w rest,
      s = w ++ rest /\ forallb p w = true /\ lo <= length w /\
      (forall c r, rest = c :: r -> p c = false) /\ k rest = Some a.
Proof.
  induction s as [|c s IH]; intros lo k a K H; simpl in H.
  - destruct lo; [|discriminate].
    exists [], []. repeat split; auto. discriminate.
  - destruct (p c) eqn:Pc.
    + destruct (greedy p (pred lo) None s k) as [a'|] eqn:G.
      * injection H as <-.
        destruct (IH _ _ _ K G) as (w & rest & -> & Fw & Lo & Stop & Ka).
        exists (c :: w), rest. simpl. rewrite Pc, Fw.
        repeat split; auto. lia.
      * destruct lo; [|discriminate]. exfalso.
        now apply (greedy_total p s k K).
    + destruct lo; [|discriminate].
      exists [], (c :: s). repeat split; auto.
      intros c' r [= <- <-]. exact Pc.
Qed.

Lemma class_digit_false (c : N) :
  class_match true digit_09 c = false -> is_digit c = false.
Proof. now rewrite class_digit. Qed.

(** Followed by nothing that can fail, the pattern of a number reads one
    literal, up to where the number stops. *)
Lemma number_longest (A : Type) (s : pystr) (g : groups)
  (k : pystr -> groups -> option A) (a : A) :
  (forall s' g', k s' g' <> None) ->
  exec true number s g k = Some a ->
  exists lit rest,
    s = lit ++ rest /\ numeric_literal lit /\ ends_number lit rest /\
    k rest g = Some a.
Proof.
  intros K H. unfold number, Opt, Plus in H. cbn [exec] in H.
  apply greedy_longest in H as (ip & rest1 & -> & Fi & Li & Stop1 & H).
  2:{ intros s'.
      match goal with
      | |- match ?x with _ => _ end <> None =>
          destruct x; [discriminate|apply K]
      end. }
  rewrite (forallb_ext_eq _ _ _ class_digit) in Fi.
  pose proof (digits_nonempty Li) as Ni.
  destruct rest1 as [|c r].
  - (* the message ends after the digits *)
    cbv beta iota in H.
    exists ip, []. rewrite app_nil_r. repeat split; auto.
    + exists ip. repeat split; auto.
    + discriminate.
    + discriminate.
  - pose proof (Stop1 c r eq_refl) as Hc. apply class_digit_false in Hc.
    cbv beta iota in H.
    destruct (class_match true [Ch 46; Ch 44] c) eqn:Sep.
    + destruct (greedy (class_match true digit_09) 1 None r
                  (fun s' => k s' g)) as [a'|] eqn:G.
      * injection H as <-.
        apply greedy_longest in G
          as (fp & rest & -> & Ff & Lf & Stop2 & Ka); [|intros; apply K].
        rewrite (forallb_ext_eq _ _ _ class_digit) in Ff.
        exists (ip ++ c :: fp), rest. rewrite <- app_assoc. simpl.
        repeat split; auto.
        -- exists ip. repeat split; auto.
           ++ destruct ip; [congruence|discriminate].
           ++ right. exists c, fp. repeat split; auto.
              ** now apply class_separator.
              ** now apply digits_nonempty.
        -- intros d r' ->. apply class_digit_false. now apply (Stop2 d r').
        -- rewrite forallb_app. simpl. rewrite Hc, andb_false_r.
           discriminate.
      * (* a separator, but no digit after it *)
        exists ip, (c :: r). repeat split; auto.
        -- exists ip. repeat split; auto.
        -- intros d r' [= <- <-]. exact Hc.
        -- intros _ c' d r' [= <- ->] _.
           destruct (is_digit d) eqn:Hd; auto. exfalso.
           revert G. change (d :: r') with ([d] ++ r').
           apply greedy_complete.
           ++ cbn [forallb]. now rewrite class_digit, Hd.
           ++ simpl. lia.
           ++ discriminate.
           ++ apply K.
    + exists ip, (c :: r). repeat split; auto.
      * exists ip. repeat split; auto.
      * intros d r' [= <- <-]. exact Hc.
      * intros _ c' d r' [= <- ->] [-> | ->]; discriminate.
Qed.

(** The same for the capturing group around it. *)
Lemma number_group_longest (s : pystr) (g m : groups) :
  exec true (Group 1 number) s g (fun _ g' => Some g') = Some m ->
  exists lit rest,
    s = lit ++ rest /\ numeric_literal lit /\ ends_number lit rest /\
    m = (1, lit) :: g.
Proof.
  intros H. cbn [exec] in H.
  apply number_longest in H as (lit & rest & -> & L & E & H);
    [|discriminate].
  rewrite firstn_consumed in H. injection H as <-.
  now exists lit, rest.
Qed.




(** ... [\s] is whitespace and [[\s:]] whitespace or a colon. *)
Lemma class_space (x : N) :
  class_match true [ Space ] x = true -> is_space x = true.
Proof.
  unfold class_match. cbn [existsb item_match]. now rewrite orb_false_r.
Qed.


Lemma forallb_impl (A : Type) (f g : A -> bool) (l : list A) :
  (forall x, f x = true -> g x = true) ->
  forallb f l = true -> forallb g l = true.
Proof.
  intros I. induction l as [|a l IH]; simpl; auto.
  intros H. apply andb_prop in H as [Ha Hl]. now rewrite (I _ Ha), IH.
Qed.

(** A literal string matches, whatever the flag, the strings that are the
    same up to case. *)
Lemma matches_lits (t w : pystr) (g g' : groups) :
  t <> [] -> matches true (lits t) w g g' -> lower w = lower t /\ g' = g.
Proof.
  revert w g g'. induction t as [|c t IH]; intros w g g' Nt H; [congruence|].
  destruct t as [|c' t'].
  - apply matches_Lit in H as (x & -> & E & ->).
    unfold lit_match in E. apply N.eqb_eq in E. simpl. now rewrite E.
  - change (lits (c :: c' :: t')) with (Seq (Lit c) (lits (c' :: t'))) in H.
    apply matches_Seq in H as (w1 & w2 & g1 & -> & H1 & H2).
    apply matches_Lit in H1 as (x & -> & E & ->).
    apply IH in H2 as [E2 ->]; [|discriminate].
    unfold lit_match in E. apply N.eqb_eq in E.
    split; auto. simpl. simpl in E2. now rewrite E, E2.
Qed.


Lemma exec_Seq (A : Type) (ic : bool) (r1 r2 : regex) (s : pystr)
  (g : groups) (k : pystr -> groups -> option A) :
  exec ic (Seq r1 r2) s g k
  = exec ic r1 s g (fun s' g' => exec ic r2 s' g' k).
Proof. reflexivity. Qed.



(** What a match of the price pattern is made of. *)
Lemma price_match_structure (s : pystr) (m : groups) :
  match_at true (expr PRICE_PATTERN) s = Some m ->
  exists kw blanks lit rest,
    s = kw ++ blanks ++ lit ++ rest /\
    (lower kw = str "at" \/ lower kw = [a_grave]) /\
    blanks <> [] /\ forallb is_space blanks = true /\
    numeric_literal lit /\ ends_number lit rest /\
    group 1 m = Some lit.
Proof.
  unfold match_at, PRICE_PATTERN, expr. intros H.
  rewrite exec_Seq in H.
  apply exec_sound in H as (kw & s1 & g1 & -> & M1 & H).
  rewrite exec_Seq in H.
  apply exec_sound in H as (blanks & s2 & g2 & -> & M2 & H).
  apply number_group_longest in H as (lit & rest & -> & L & E & ->).
  apply matches_Rep in M2 as (F2 & L2 & _ & ->).
  exists kw, blanks, lit, rest. repeat split; auto.
  - apply matches_Alt in M1 as [M1|M1].
    + apply matches_lits in M1 as [-> _]; [|discriminate]. now left.
    + apply matches_Lit in M1 as (x & -> & Ex & _).
      unfold lit_match in Ex. apply N.eqb_eq in Ex.
      right. simpl. now rewrite Ex.
  - now apply digits_nonempty.
  - exact (forallb_impl _ _ _ class_space F2).
  - apply E.
  - apply E.
Qed.

Lemma lower_fixed (s : pystr) :
  lower s = s <-> Forall (fun c => lower_cp c = c) s.
Proof.
  unfold lower. induction s as [|c s IH]; simpl.
  - split; auto.
  - split.
    + intros [= E1 E2]. constructor; auto. now apply IH.
    + intros H. inversion H; subst. f_equal; auto. now apply IH.
Qed.

(** A piece of a lower-cased string is in lower case. *)
Lemma lower_piece (n a w b : pystr) :
  lower n = a ++ w ++ b -> lower w = w.
Proof.
  intros E. apply lower_fixed.
  assert (F : Forall (fun c => lower_cp c = c) (lower n)).
  { apply lower_fixed, lower_idem. }
  rewrite E in F. apply Forall_app in F as [_ F].
  now apply Forall_app in F as [F _].
Qed.



(** X4. The price of a parsed order, when it has one, is the value of a
    number of the lower-cased message that stands after [at] or [à] and
    one or more whitespace characters, read to its end. *)
Theorem X4_price_follows_at
  (message : string) (o : OrderInstruction) (p : spec_float) :
  parse (str message) = Ok o -> price o = Some p ->
  exists before kw blanks lit rest,
    lower (strip (str message)) = before ++ kw ++ blanks ++ lit ++ rest /\
    (kw = str "at" \/ kw = [a_grave]) /\
    blanks <> [] /\ forallb is_space blanks = true /\
    numeric_literal lit /\ ends_number lit rest /\
    py_float (replace 44 46 lit) = Some p.
Proof.
  intros H P. apply parse_ok_inv in H as (_ & _ & _ & _ & _ & Pr).
  set (low := lower (strip (str message))) in *.
  destruct (any_token LIMIT_TOKENS low); [|congruence].
  destruct Pr as (x & Ex & Px). rewrite P in Px. injection Px as <-.
  unfold _extract_price, pattern_search in Ex. simpl flag_ignorecase in Ex.
  destruct (search true (expr PRICE_PATTERN) low) as [m|] eqn:S;
    [|discriminate].
  apply search_leftmost in S as (before & s & E & M & _).
  apply price_match_structure in M
    as (kw & blanks & lit & rest & -> & K & Nb & Fb & L & En & G).
  destruct (float_of_group m) as [y| |] eqn:Fg; try discriminate.
  cbn [bind] in Ex. injection Ex as ->.
  apply float_of_group_inv in Fg as (lit' & G' & F).
  rewrite G in G'. injection G' as <-.
  exists before, kw, blanks, lit, rest. repeat split; auto;
    try apply En.
  now rewrite <- (lower_piece _ _ _ _ E).
Qed.

Lemma X4_price_follows_at_witness :
  exists o p,
    parse (str "vends 10 ETHUSDT at 1800 limit") = Ok o /\
    price o = Some p /\
    exists before kw blanks lit rest,
      lower (strip (str "vends 10 ETHUSDT at 1800 limit"))
      = before ++ kw ++ blanks ++ lit ++ rest /\
      (kw = str "at" \/ kw = [a_grave]) /\
      blanks <> [] /\ forallb is_space blanks = true /\
      numeric_literal lit /\ ends_number lit rest /\
      py_float (replace 44 46 lit) = Some p.
Proof.
  do 2 eexists. split; [vm_compute; reflexivity|].
  split; [reflexivity|].
  eapply (@X4_price_follows_at "vends 10 ETHUSDT at 1800 limit");
    [vm_compute; reflexivity|reflexivity].
Defined.

(** ** Side words and the quantity *)

Lemma startswith_app (t b : pystr) : startswith (t ++ b) t = true.
Proof.
  induction t as [|c t IH]; cbn [startswith app].
  - now destruct b.
  - now rewrite N.eqb_refl, IH.
Qed.

Lemma contains_here (t s : pystr) :
  startswith s t = true -> contains t s = true.
Proof. intros H. destruct s; cbn [contains]; now rewrite H. Qed.

Lemma contains_app (t a b : pystr) : contains t (a ++ t ++ b) = true.
Proof.
  induction a as [|c a IH]; cbn [contains app].
  - apply contains_here, startswith_app.
  - rewrite IH. apply orb_true_r.
Qed.

Lemma any_token_app (tokens : list pystr) (t a b : pystr) :
  List.In t tokens -> any_token tokens (a ++ t ++ b) = true.
Proof.
  intros H. apply existsb_exists. exists t. split; auto.
  apply contains_app.
Qed.

(** A run of the matcher that reads a whole word is a match of it. *)
Lemma matches_by_exec (ic : bool) (r : regex) (w : pystr) (g g' : groups) :
  exec ic r w g
    (fun s' g'' => match s' with [] => Some g'' | _ :: _ => None end)
  = Some g' ->
  matches ic r w g g'.
Proof.
  intros H. apply exec_sound in H as (w0 & s' & g0 & -> & M & K).
  destruct s' as [|c s']; [|discriminate].
  injection K as <-. now rewrite app_nil_r.
Qed.

(** Every side token ends with an action word of the quantity pattern. *)
Lemma side_token_action (tok : pystr) :
  List.In tok (BUY_TOKENS ++ SELL_TOKENS) ->
  exists skip w, tok = skip ++ w /\ matches true action_regex w [] [].
Proof.
  intros H. simpl in H.
  repeat (destruct H as [<-|H];
          [first
             [ exists []; eexists; split; [reflexivity|];
               apply matches_by_exec; vm_compute; reflexivity
             | exists (str "re"); eexists; split; [reflexivity|];
               apply matches_by_exec; vm_compute; reflexivity ]|]).
  contradiction.
Qed.

Lemma blank_or_colon_class (c : N) :
  is_blank_or_colon c = true -> class_match true [ Space; Ch 58 ] c = true.
Proof.
  unfold is_blank_or_colon, class_match. cbn [existsb item_match].
  intros H. apply orb_prop in H as [->|H]; auto.
  apply N.eqb_eq in H. subst c. reflexivity.
Qed.

(** A side token, blanks or colons and a number: the quantity pattern
    finds a quantity. *)
Lemma quantity_after_side_token (pre tok seps lit post : pystr) :
  List.In tok (BUY_TOKENS ++ SELL_TOKENS) ->
  seps <> [] -> forallb is_blank_or_colon seps = true ->
  numeric_literal lit ->
  pattern_search QUANTITY_PATTERN (pre ++ tok ++ seps ++ lit ++ post)
  <> None.
Proof.
  intros T Ns Fs L.
  destruct (@side_token_action _ T) as (skip & w & -> & Mw).
  unfold pattern_search. simpl flag_ignorecase.
  replace (pre ++ (skip ++ w) ++ seps ++ lit ++ post)
    with ((pre ++ skip) ++ (w ++ seps ++ [] ++ lit) ++ post)
    by (simpl; now rewrite <- !app_assoc).
  apply search_complete with (m := [ (1, lit) ]).
  unfold QUANTITY_PATTERN, expr.
  apply M_Seq with (g1 := []); [exact Mw|].
  apply M_Seq with (g1 := []).
  - constructor.
    + exact (forallb_impl _ _ _ blank_or_colon_class Fs).
    + destruct seps; simpl; [congruence|lia].
    + discriminate.
  - apply M_Seq with (g1 := []).
    + apply M_AltR. constructor.
    + constructor. now apply number_complete.
Qed.

(** Once a quantity is found, the error is not that of the quantity. *)
Lemma parse_quantity_found (m : pystr) :
  pattern_search QUANTITY_PATTERN (lower (strip m)) <> None ->
  parse m <> Raise MissingQuantityError.
Proof.
  intros Q. destruct (whitespace_only m) eqn:W.
  { now rewrite parse_empty. }
  rewrite (parse_steps _ W).
  pose proof (_extract_quantity_cases (lower (strip m))) as C.
  destruct (pattern_search QUANTITY_PATTERN (lower (strip m)));
    [|congruence].
  destruct C as (q & -> & _).
  rewrite _extract_side_cases.
  destruct (any_token BUY_TOKENS (lower (strip m)));
    [|destruct (any_token SELL_TOKENS (lower (strip m)));
      [|discriminate]];
    cbn [bind];
    (destruct (_extract_pair (strip m)) as [p|e|] eqn:Ep; cbn [bind];
     [|apply _extract_pair_raises in Ep as ->; discriminate
      |discriminate]);
    (destruct (is_limit (_extract_order_type (lower (strip m))));
     [|discriminate]);
    (destruct (_extract_price (lower (strip m))) as [[x|]|e|] eqn:Epr;
     cbn [bind]; try discriminate;
     now apply _extract_price_raises in Epr).
Qed.

(** X5. The side words and the quantity pattern agree: when a buy or sell
    token of the lower-cased message is directly followed by blanks or
    colons and a number, [parse] fails neither for the side nor for the
    quantity (nor for an empty message). *)
Theorem X5_side_token_then_number
  (message : string) (pre tok seps lit post : pystr) :
  lower (strip (str message)) = pre ++ tok ++ seps ++ lit ++ post ->
  List.In tok (BUY_TOKENS ++ SELL_TOKENS) ->
  seps <> [] -> forallb is_blank_or_colon seps = true ->
  numeric_literal lit ->
  parse (str message) <> Raise EmptyInstructionError /\
  parse (str message) <> Raise AmbiguousSideError /\
  parse (str message) <> Raise MissingQuantityError.
Proof.
  intros E T Ns Fs L.
  assert (W : whitespace_only (str message) = false).
  { apply not_true_is_false. intros W. apply strip_nil in W.
    rewrite W in E. simpl in E.
    destruct (@side_token_action _ T) as (skip & w & -> & Mw).
    destruct pre; [|discriminate]. destruct skip; [|discriminate].
    destruct seps; [congruence|]. destruct w; discriminate. }
  assert (S : any_token BUY_TOKENS (lower (strip (str message)))
              || any_token SELL_TOKENS (lower (strip (str message)))
              = true).
  { rewrite E. apply in_app_or in T as [T|T].
    - now rewrite (@any_token_app _ _ _ _ T).
    - rewrite (@any_token_app _ _ _ _ T). apply orb_true_r. }
  destruct (@_extract_side_found _ S) as (s & Es & _).
  split; [|split].
  - rewrite (parse_steps _ W), Es. cbn [bind].
    destruct (_extract_pair (strip (str message))) as [p|e|] eqn:Ep;
      cbn [bind]; [| |discriminate].
    + destruct (_extract_quantity (lower (strip (str message))))
        as [q|e|] eqn:Eq; cbn [bind]; [| |discriminate].
      * destruct (is_limit _); [|discriminate].
        destruct (_extract_price _) as [[x|]|e|] eqn:Epr; cbn [bind];
          try discriminate.
        now apply _extract_price_raises in Epr.
      * apply _extract_quantity_raises in Eq as ->. discriminate.
    + apply _extract_pair_raises in Ep as ->. discriminate.
  - now apply parse_side_found with s.
  - apply parse_quantity_found. rewrite E.
    now apply quantity_after_side_token.
Qed.

Lemma X5_side_token_then_number_witness :
  parse (str "oui VEND: 3 ok") <> Raise EmptyInstructionError /\
  parse (str "oui VEND: 3 ok") <> Raise AmbiguousSideError /\
  parse (str "oui VEND: 3 ok") <> Raise MissingQuantityError /\
  parse (str "oui VEND: 3 ok") = Raise MissingPairError.
Proof.
  destruct (@X5_side_token_then_number "oui VEND: 3 ok"
              (str "oui ") (str "vend") (str ": ") (str "3")
              (str " ok")) as (A & B & C).
  - reflexivity.
  - simpl. auto 10.
  - discriminate.
  - reflexivity.
  - exists (str "3"). repeat split; try discriminate; auto.
  - split; [exact A|]. split; [exact B|]. split; [exact C|].
    vm_compute. reflexivity.
Defined.

(* ===================================================================== *)
(** * Properties of the client, the translator and the command line *)
(* ===================================================================== *)

Import PyVal Client Glue Cli.

Lemma pystr_eqb_eq (a b : pystr) : pystr_eqb a b = true <-> a = b.
Proof.
  unfold pystr_eqb. destruct (list_eq_dec N.eq_dec a b); split;
    congruence.
Qed.

Lemma pystr_eqb_refl (a : pystr) : pystr_eqb a a = true.
Proof. now apply pystr_eqb_eq. Qed.

Lemma pystr_eqb_neq (a b : pystr) : a <> b -> pystr_eqb a b = false.
Proof.
  intros H. apply not_true_is_false. now rewrite pystr_eqb_eq.
Qed.

Lemma dict_get_set_same (k : pystr) (v : pyval) (d : dict) :
  dict_get k (dict_set k v d) = Some v.
Proof.
  induction d as [|[k' v'] d IH]; cbn [dict_set dict_get].
  - now rewrite pystr_eqb_refl.
  - destruct (pystr_eqb k k') eqn:E; cbn [dict_get]; rewrite E; auto.
Qed.

Lemma without_side_absent (d : dict) :
  dict_get (str "side") d = None -> without_side d = d.
Proof.
  unfold without_side. induction d as [|[k v] d IH]; auto.
  cbn [dict_get filter fst].
  destruct (pystr_eqb (str "side") k) eqn:E; [discriminate|].
  intros H. assert (pystr_eqb k (str "side") = false) as ->.
  { apply pystr_eqb_neq. intros ->. now rewrite pystr_eqb_refl in E. }
  cbn [negb]. now rewrite IH.
Qed.

(** Setting the side and filtering it out again gives the dict back. *)
Lemma without_side_set (v : pyval) (d : dict) :
  dict_get (str "side") d = None ->
  without_side (dict_set (str "side") v d) = d.
Proof.
  unfold without_side. induction d as [|[k w] d IH].
  - reflexivity.
  - cbn [dict_get dict_set].
    destruct (pystr_eqb (str "side") k) eqn:E; [discriminate|].
    intros H. cbn [filter fst].
    assert (pystr_eqb k (str "side") = false) as ->.
    { apply pystr_eqb_neq. intros ->. now rewrite pystr_eqb_refl in E. }
    cbn [negb]. now rewrite IH.
Qed.

Lemma without_side_get (k : pystr) (d : dict) :
  dict_get k (without_side d)
  = if pystr_eqb k (str "side") then None else dict_get k d.
Proof.
  unfold without_side. induction d as [|[k' v] d IH].
  - cbn [filter dict_get]. now destruct (pystr_eqb k (str "side")).
  - cbn [filter fst dict_get].
    destruct (pystr_eqb k' (str "side")) eqn:E1; cbn [negb dict_get].
    + apply pystr_eqb_eq in E1. subst k'. rewrite IH.
      now destruct (pystr_eqb k (str "side")).
    + destruct (pystr_eqb k k') eqn:E2.
      * apply pystr_eqb_eq in E2. subst k'. now rewrite E1.
      * exact IH.
Qed.

Lemma as_payload_no_side (o : OrderInstruction) (account : Z) :
  dict_get (str "side") (as_payload o account) = None.
Proof. reflexivity. Qed.

Lemma as_payload_position_type (o : OrderInstruction) (account : Z) :
  exists position t,
    dict_get (str "position") (as_payload o account)
    = Some (VDict position) /\
    dict_get (str "type") position = Some (VStr t) /\
    (t = str "market" \/ t = str "limit").
Proof.
  unfold as_payload.
  destruct (pystr_eqb (order_type o) (str "limit"));
    destruct (pystr_eqb (order_type o) (str "market"));
    eexists; eexists; (split; [reflexivity|]); (split; [reflexivity|]);
    auto.
Qed.

(** X6. A payload as [as_payload] builds it carries no side, and its
    position type is market or limit, never [sell]: handed to the client
    as it is, the side is inferred as buy, whatever the side of the order
    was, and the trade goes to the buy endpoint with that payload. *)
Theorem X6_bare_payload_is_a_buy (ext : externals)
  (config : ThreeCommasConfig) (o : OrderInstruction) (account : Z)
  (sent : list http_request) :
  _infer_side_from_position (as_payload o account)
  = Ok (VStr (str "buy")) /\
  create_simple_trade ext config (as_payload o account) sent
  = _request ext config (str "POST") (endpoint_for (str "buy"))
      (Some (as_payload o account)) sent.
Proof.
  assert (I : _infer_side_from_position (as_payload o account)
              = Ok (VStr (str "buy"))).
  { unfold _infer_side_from_position, py_get, dict_get_or.
    rewrite as_payload_no_side. cbn [truthy].
    destruct (as_payload_position_type o account)
      as (position & t & -> & -> & [-> | ->]); reflexivity. }
  split; [exact I|].
  unfold create_simple_trade, py_get, dict_get_or.
  rewrite as_payload_no_side. cbn [truthy]. rewrite I.
  now rewrite (without_side_absent _ (as_payload_no_side o account)).
Qed.


(** X7. With a non-empty string under [side], [create_simple_trade] posts
    to the endpoint of that side, and the payload it posts is the
    instruction without its [side]: no [side] key, every other key with its
    value. *)
Theorem X7_side_selects_endpoint (ext : externals)
  (config : ThreeCommasConfig) (instruction : dict) (s : pystr)
  (sent : list http_request) :
  py_get (str "side") instruction = VStr s -> s <> [] ->
  create_simple_trade ext config instruction sent
  = _request ext config (str "POST") (endpoint_for s)
      (Some (without_side instruction)) sent /\
  dict_get (str "side") (without_side instruction) = None /\
  forall k, k <> str "side" ->
    dict_get k (without_side instruction) = dict_get k instruction.
Proof.
  intros G Ns. split; [|split].
  - unfold create_simple_trade. rewrite G. cbn [truthy].
    destruct s; [congruence|]. reflexivity.
  - rewrite without_side_get. now rewrite pystr_eqb_refl.
  - intros k Nk. rewrite without_side_get.
    now rewrite (pystr_eqb_neq Nk).
Qed.

Lemma X7_side_selects_endpoint_witness :
  let instruction :=
    [ (str "side", VStr (str "sell")); (str "pair", VStr (str "BTC_USDT")) ]
  in
  create_simple_trade quiet_world (new_config [] [] 7 true) instruction []
  = (Ok (dry_run_answer (new_config [] [] 7 true) (endpoint_for (str "sell"))
           [ (str "pair", VStr (str "BTC_USDT")) ]), []).
Proof.
  intros instruction.
  destruct (@X7_side_selects_endpoint quiet_world (new_config [] [] 7 true)
              instruction (str "sell") []) as (E & _).
  - reflexivity.
  - discriminate.
  - rewrite E. vm_compute. reflexivity.
Defined.

(** What [_request] does with a payload. *)
Lemma _request_outcome (ext : externals) (config : ThreeCommasConfig)
  (endpoint : pystr) (payload : dict) (sent : list http_request) :
  _request ext config (str "POST") endpoint (Some payload) sent =
    match hexdigest ext (api_secret config)
            (str_of_int (clock ext) ++ json_dumps ext payload) with
    | None => (OtherError, sent)
    | Some digest =>
        if dry_run config
        then (Ok (dry_run_answer config endpoint payload), sent)
        else
          let request :=
            signed_request ext config endpoint payload
              (str_of_int (clock ext) ++ str ":" ++ digest) in
          (library_call (respond ext request), sent ++ [request])
    end.
Proof.
  unfold _request, _sign.
  replace (match Some payload with
           | Some ((_ :: _) as d) => d
           | _ => []
           end) with payload by (now destruct payload).
  destruct (hexdigest ext (api_secret config)
              (str_of_int (clock ext) ++ json_dumps ext payload));
    cbn [library_call bind]; reflexivity.
Qed.

(** What [translate_and_execute] does with a message that parses. *)
Lemma translate_parsed (ext : externals) (config : ThreeCommasConfig)
  (m : pystr) (o : OrderInstruction) (sent : list http_request) :
  parse m = Ok o ->
  translate_and_execute ext config m sent
  = _request ext config (str "POST") (endpoint_for (side o))
      (Some (as_payload o (account_id config))) sent.
Proof.
  intros H. unfold translate_and_execute. rewrite H.
  unfold create_simple_trade, py_get, dict_get_or.
  rewrite dict_get_set_same.
  apply parse_ok_complete in H as (S & _).
  assert (truthy (VStr (side o)) = true) as ->
    by (destruct S as [-> | ->]; reflexivity).
  rewrite without_side_set by apply as_payload_no_side.
  reflexivity.
Qed.

Lemma parse_total (m : pystr) : parse m <> OtherError.
Proof.
  destruct (whitespace_only m) eqn:W.
  { now rewrite parse_empty. }
  rewrite (parse_steps _ W), _extract_side_cases.
  pose proof (_extract_quantity_cases (lower (strip m))) as Q.
  pose proof (_extract_price_cases (lower (strip m))) as P.
  pose proof (_extract_pair_cases (strip m)) as Pa.
  destruct (any_token BUY_TOKENS (lower (strip m)));
    [|destruct (any_token SELL_TOKENS (lower (strip m)));
      [|discriminate]];
    cbn [bind];
    (destruct (pattern_search PAIR_PATTERN (upper (strip m)));
     [destruct Pa as (p & ->)|rewrite Pa; discriminate]);
    cbn [bind];
    (destruct (pattern_search QUANTITY_PATTERN (lower (strip m)));
     [destruct Q as (q & -> & _)|rewrite Q; discriminate]);
    cbn [bind];
    (destruct (is_limit (_extract_order_type (lower (strip m))));
     [|discriminate]);
    (destruct (pattern_search PRICE_PATTERN (lower (strip m)));
     [destruct P as (x & -> & _)|rewrite P]); discriminate.
Qed.

(** X8. [translate_and_execute] re-raises the error of a message that
    does not parse and sends nothing; for a message that parses it is the
    POST of the order's payload, without the side, to the endpoint named
    after the order's side, buy or sell. *)
Theorem X8_translate_posts_parsed_order (ext : externals)
  (config : ThreeCommasConfig) (message : string)
  (sent : list http_request) :
  (forall e, parse (str message) = Raise e ->
     translate_and_execute ext config (str message) sent = (Raise e, sent)) /\
  (forall o, parse (str message) = Ok o ->
     (side o = str "buy" \/ side o = str "sell") /\
     translate_and_execute ext config (str message) sent
     = _request ext config (str "POST") (endpoint_for (side o))
         (Some (as_payload o (account_id config))) sent).
Proof.
  split.
  - intros e H. unfold translate_and_execute. now rewrite H.
  - intros o H. split.
    + now apply parse_ok_complete in H as (S & _).
    + now apply translate_parsed.
Qed.

(** X9. In a dry run nothing is ever sent, whatever the message; and when
    the message parses and the body can be signed, the answer names the
    method POST, the url of the side's endpoint and the payload of the
    order. *)
Theorem X9_dry_run_sends_nothing (ext : externals)
  (config : ThreeCommasConfig) (message : string)
  (sent : list http_request) :
  dry_run config = true ->
  snd (translate_and_execute ext config (str message) sent) = sent /\
  forall o digest,
    parse (str message) = Ok o ->
    hexdigest ext (api_secret config)
      (str_of_int (clock ext)
       ++ json_dumps ext (as_payload o (account_id config)))
    = Some digest ->
    translate_and_execute ext config (str message) sent
    = (Ok (dry_run_answer config (endpoint_for (side o))
             (as_payload o (account_id config))), sent).
Proof.
  intros D. split.
  - destruct (parse (str message)) as [o|e|] eqn:H.
    + rewrite (translate_parsed _ _ _ _ H), _request_outcome, D.
      now destruct (hexdigest _ _ _).
    + unfold translate_and_execute. now rewrite H.
    + unfold translate_and_execute. now rewrite H.
  - intros o digest H Hd.
    now rewrite (translate_parsed _ _ _ _ H), _request_outcome, Hd, D.
Qed.

Lemma X9_dry_run_sends_nothing_witness :
  let config := new_config (str "key") (str "secret") 42 true in
  exists o,
    parse (str "buy 0.5 BTC/USDT") = Ok o /\
    translate_and_execute quiet_world config (str "buy 0.5 BTC/USDT") []
    = (Ok (VDict
             [ (str "status", VStr (str "dry_run"));
               (str "method", VStr (str "POST"));
               (str "url",
                VStr (str "https://api.3commas.io/public/api/ver1/smart_trades/create_simple_buy"));
               (str "payload", VDict (as_payload o 42)) ]), []).
Proof.
  intros config. eexists. split; [vm_compute; reflexivity|].
  destruct (@X9_dry_run_sends_nothing quiet_world config
              "buy 0.5 BTC/USDT" [] eq_refl) as (_ & A).
  match goal with
  | |- _ = (Ok (VDict [ _; _; _; (_, VDict (as_payload ?o _)) ]), _) =>
      rewrite (A o (str "c0ffee"));
        [vm_compute; reflexivity|vm_compute; reflexivity|reflexivity]
  end.
Defined.

(** X10. One call sends at most one request.  A live call for a message
    that parses, with a body that can be signed, sends exactly the signed
    POST (url of the side's endpoint, the JSON text of the payload, the
    three headers, the configured timeout) and returns its outcome; when
    signing fails nothing is sent and an exception leaves the call. *)
Theorem X10_at_most_one_request (ext : externals)
  (config : ThreeCommasConfig) (message : string)
  (sent : list http_request) :
  (exists extra,
     snd (translate_and_execute ext config (str message) sent)
     = sent ++ extra /\ length extra <= 1) /\
  (forall o, parse (str message) = Ok o ->
     let payload := as_payload o (account_id config) in
     let body := str_of_int (clock ext) ++ json_dumps ext payload in
     (hexdigest ext (api_secret config) body = None ->
      translate_and_execute ext config (str message) sent
      = (OtherError, sent)) /\
     (forall digest,
        dry_run config = false ->
        hexdigest ext (api_secret config) body = Some digest ->
        let request :=
          signed_request ext config (endpoint_for (side o)) payload
            (str_of_int (clock ext) ++ str ":" ++ digest) in
        translate_and_execute ext config (str message) sent
        = (library_call (respond ext request), sent ++ [request]))).
Proof.
  assert (nothing : forall (r : result pyval),
            exists extra, snd (r, sent) = sent ++ extra /\ length extra <= 1).
  { intros r. exists []. cbn [snd]. rewrite app_nil_r. split; auto. }
  split.
  - destruct (parse (str message)) as [o|e|] eqn:H.
    + rewrite (translate_parsed _ _ _ _ H), _request_outcome.
      destruct (hexdigest _ _ _); [destruct (dry_run config)|];
        try apply nothing.
      eexists [_]. split; [reflexivity|]. simpl. lia.
    + unfold translate_and_execute. rewrite H. apply nothing.
    + unfold translate_and_execute. rewrite H. apply nothing.
  - intros o H payload body. split.
    + intros Hd.
      rewrite (translate_parsed _ _ _ _ H), _request_outcome.
      fold payload body. now rewrite Hd.
    + intros digest D Hd request.
      rewrite (translate_parsed _ _ _ _ H), _request_outcome.
      fold payload body. now rewrite Hd, D.
Qed.

Lemma missing_names_spec (getenv : pystr -> option pystr) (name : pystr) :
  List.In name (missing_names getenv) <->
  List.In name [ KEY; SECRET; ACCOUNT ] /\ unset (getenv name) = true.
Proof.
  unfold missing_names. rewrite in_map_iff. split.
  - intros ([k v] & <- & H). apply filter_In in H as [H U].
    simpl in H, U. cbn [fst].
    destruct H as [[= <- <-]|[[= <- <-]|[[= <- <-]|[]]]]; split; auto;
      simpl; auto.
  - intros [H U]. exists (name, getenv name). split; auto.
    apply filter_In. split; auto.
    simpl in H. destruct H as [<-|[<-|[<-|[]]]]; simpl; auto.
Qed.

Lemma load_config_missing (ext : externals)
  (getenv : pystr -> option pystr) (dry : bool) :
  missing_names getenv <> [] ->
  load_config ext getenv dry
  = Some (inr (missing_text (missing_names getenv))).
Proof.
  unfold load_config, missing_text, missing_names.
  destruct (getenv KEY) as [[|c1 k]|];
    destruct (getenv SECRET) as [[|c2 s]|];
    destruct (getenv ACCOUNT) as [[|c3 a]|];
    cbn [filter snd unset map fst]; intros H; try reflexivity.
  congruence.
Qed.

(** X11. [main] without a message, or with an empty one, returns 1 before
    it looks at the environment.  With a message, as soon as one of the
    three variables is unset or empty it ends with [SystemExit], naming
    exactly the unset ones in the order key, secret, account; the message
    is not parsed (a dry run needs the variables as well) and nothing is
    sent. *)
Theorem X11_main_checks_before_parsing (ext : externals)
  (getenv : pystr -> option pystr) (args : arguments)
  (sent : list http_request) :
  (arg_message args = None \/ arg_message args = Some [] ->
   main ext getenv args sent = (Return 1, sent)) /\
  (forall c msg,
     arg_message args = Some (c :: msg) ->
     missing_names getenv <> [] ->
     main ext getenv args sent
     = (SystemExit (missing_text (missing_names getenv)), sent)) /\
  (forall name,
     List.In name (missing_names getenv) <->
     List.In name [ KEY; SECRET; ACCOUNT ] /\ unset (getenv name) = true).
Proof.
  split; [|split].
  - unfold main. now intros [-> | ->].
  - intros c msg M Miss. unfold main. rewrite M.
    now rewrite (@load_config_missing ext getenv (arg_dry_run args) Miss).
  - apply missing_names_spec.
Qed.

Lemma X11_main_checks_before_parsing_witness :
  let getenv := fun name =>
    if pystr_eqb name SECRET then Some [] else
    if pystr_eqb name KEY then Some (str "key") else None in
  let args := {| arg_message := Some (str "not an order");
                 arg_dry_run := true; arg_env_file := str ".env" |} in
  main quiet_world getenv args []
  = (SystemExit
       (str ("Missing environment variables: "
             ++ "THREECOMMAS_API_SECRET, THREECOMMAS_ACCOUNT_ID"
             ++ ". Configure them or provide an .env file.")), []).
Proof.
  intros getenv args.
  destruct (X11_main_checks_before_parsing quiet_world getenv args [])
    as (_ & B & _).
  rewrite (B 110%N (str "ot an order")).
  - vm_compute. reflexivity.
  - reflexivity.
  - vm_compute. discriminate.
Defined.

(** With the three variables set and an integer account, the
    configuration is read. *)
Lemma load_config_ok (ext : externals) (getenv : pystr -> option pystr)
  (dry : bool) (key secret account : pystr) (n : Z) :
  getenv KEY = Some key -> key <> [] ->
  getenv SECRET = Some secret -> secret <> [] ->
  getenv ACCOUNT = Some account ->
  py_int (int_max_str_digits ext) account = Some n ->
  load_config ext getenv dry = Some (inl (new_config key secret n dry)).
Proof.
  intros K Nk S Ns A I. unfold load_config. rewrite K, S, A.
  destruct key as [|c1 key]; [congruence|].
  destruct secret as [|c2 secret]; [congruence|].
  destruct account as [|c3 account]; [discriminate|].
  now rewrite I.
Qed.

Lemma main_with_config (ext : externals) (getenv : pystr -> option pystr)
  (args : arguments) (m : pystr) (config : ThreeCommasConfig)
  (sent : list http_request) :
  arg_message args = Some m -> m <> [] ->
  load_config ext getenv (arg_dry_run args) = Some (inl config) ->
  main ext getenv args sent =
    match translate_and_execute ext config m sent with
    | (Ok _, sent') => (Return 0, sent')
    | (Raise _, sent') => (Return 2, sent')
    | (OtherError, sent') => (Return 3, sent')
    end.
Proof.
  intros M Nm L. unfold main. rewrite M.
  destruct m as [|c m]; [congruence|]. now rewrite L.
Qed.

(** X12. With a message and a complete configuration, [main] returns 2
    exactly when the message does not parse, and then nothing was sent;
    for a message that parses it returns 3 when the body cannot be signed
    (nothing sent), 0 in a dry run (nothing sent), and otherwise sends the
    one signed request and returns 0 if the exchange succeeds, 3 if it
    raises. *)
Theorem X12_main_exit_codes (ext : externals)
  (getenv : pystr -> option pystr) (args : arguments)
  (message key secret account : string) (n : Z)
  (sent : list http_request) :
  arg_message args = Some (str message) -> str message <> [] ->
  getenv KEY = Some (str key) -> str key <> [] ->
  getenv SECRET = Some (str secret) -> str secret <> [] ->
  getenv ACCOUNT = Some (str account) ->
  py_int (int_max_str_digits ext) (str account) = Some n ->
  let config := new_config (str key) (str secret) n (arg_dry_run args) in
  (fst (main ext getenv args sent) = Return 2 <->
   exists e, parse (str message) = Raise e) /\
  (forall e, parse (str message) = Raise e ->
     main ext getenv args sent = (Return 2, sent)) /\
  (forall o, parse (str message) = Ok o ->
     let payload := as_payload o n in
     let body := str_of_int (clock ext) ++ json_dumps ext payload in
     (hexdigest ext (str secret) body = None ->
      main ext getenv args sent = (Return 3, sent)) /\
     (forall digest, hexdigest ext (str secret) body = Some digest ->
        (arg_dry_run args = true ->
         main ext getenv args sent = (Return 0, sent)) /\
        (arg_dry_run args = false ->
         let request :=
           signed_request ext config (endpoint_for (side o)) payload
             (str_of_int (clock ext) ++ str ":" ++ digest) in
         main ext getenv args sent
         = (match respond ext request with
            | Some _ => Return 0
            | None => Return 3
            end, sent ++ [request])))).
Proof.
  intros M Nm K Nk S Ns A I config.
  pose proof (@main_with_config ext getenv args (str message) config sent
                M Nm
                (@load_config_ok ext getenv (arg_dry_run args) _ _ _ n
                   K Nk S Ns A I))
    as Main.
  fold config in Main.
  assert (Parsed : forall o, parse (str message) = Ok o ->
            main ext getenv args sent =
              match hexdigest ext (str secret)
                      (str_of_int (clock ext)
                       ++ json_dumps ext (as_payload o n)) with
              | None => (Return 3, sent)
              | Some digest =>
                  if arg_dry_run args then (Return 0, sent)
                  else
                    let request :=
                      signed_request ext config (endpoint_for (side o))
                        (as_payload o n)
                        (str_of_int (clock ext) ++ str ":" ++ digest) in
                    (match respond ext request with
                     | Some _ => Return 0
                     | None => Return 3
                     end, sent ++ [request])
              end).
  { intros o H. rewrite Main, (translate_parsed _ _ _ _ H), _request_outcome.
    change (api_secret config) with (str secret).
    change (account_id config) with n.
    change (dry_run config) with (arg_dry_run args).
    destruct (hexdigest ext (str secret) _); [|reflexivity].
    destruct (arg_dry_run args); [reflexivity|].
    cbv zeta. now destruct (respond ext _). }
  assert (Failed : forall e, parse (str message) = Raise e ->
            main ext getenv args sent = (Return 2, sent)).
  { intros e H. rewrite Main. unfold translate_and_execute. now rewrite H. }
  split; [|split].
  - split.
    + intros R. destruct (parse (str message)) as [o|e|] eqn:H.
      * exfalso. rewrite (Parsed o eq_refl) in R.
        destruct (hexdigest ext (str secret) _); [|discriminate].
        destruct (arg_dry_run args); [discriminate|].
        cbv zeta in R. cbn [fst] in R.
        destruct (respond ext _); discriminate.
      * now exists e.
      * exfalso. now apply (parse_total (str message)).
    + intros (e & H). now rewrite (Failed e H).
  - exact Failed.
  - intros o H payload body. rewrite (Parsed o H). fold payload body.
    split.
    + now intros ->.
    + intros digest ->. split; now intros ->.
Qed.

Lemma X12_main_exit_codes_witness :
  let dry := {| arg_message := Some (str "buy 0.5 BTC/USDT");
                arg_dry_run := true; arg_env_file := str ".env" |} in
  let live := {| arg_message := Some (str "sell 2 BTC/USDT limit");
                 arg_dry_run := false; arg_env_file := str ".env" |} in
  main quiet_world full_environment dry [] = (Return 0, []) /\
  main quiet_world full_environment live [] = (Return 2, []).
Proof.
  intros dry live. split.
  - pose proof (@X12_main_exit_codes quiet_world full_environment dry
                  "buy 0.5 BTC/USDT" "key" "secret" " 42 " 42 []
                  eq_refl ltac:(discriminate) eq_refl ltac:(discriminate)
                  eq_refl ltac:(discriminate) eq_refl eq_refl)
      as (_ & _ & P).
    edestruct P as (_ & Q); [vm_compute; reflexivity|].
    edestruct Q as (R & _); [reflexivity|].
    exact (R eq_refl).
  - pose proof (@X12_main_exit_codes quiet_world full_environment live
                  "sell 2 BTC/USDT limit" "key" "secret" " 42 " 42 []
                  eq_refl ltac:(discriminate) eq_refl ltac:(discriminate)
                  eq_refl ltac:(discriminate) eq_refl eq_refl)
      as (_ & F & _).
    apply (F MissingPriceError). vm_compute. reflexivity.
Defined.
